(** * Invoice table reconstruction: a shallow embedding of [app.py]

    The development follows the layout of the program: Python helpers
    (numbers, sorting, strings), [find_column_for_word],
    [separate_rows_by_vertical_gap], [create_structured_table] and the
    header-detection and marking loop of [print_formatted_output].

    Modelling conventions.
    - Coordinates are the rationals [Q]; sums, differences, maxima and
      comparisons of coordinates are exact, as they are for integer
      coordinates.  The threshold of the row segmenter is computed as
      the code computes it: the true division and the product with the
      literal [0.7] are rounded to binary64 ([round64]).  Elsewhere the
      rounding of binary floating point is not represented.
      Comparisons are the boolean ones of [QArith].
    - Text is [string]; a character is a code point below 256.
    - [None] of Python is [None] of [option]; truthiness of a value is
      written out at each test.
    - A local variable that may be unbound is an [option]; reading it
      while unbound raises [UnboundLocalError]. *)

From Stdlib Require Import List String Ascii Bool Arith ZArith QArith Qabs Lia.
From Stdlib Require Import Permutation Sorted Lqa.
From Stdlib Require DecimalString DecimalNat.
Import ListNotations.

Local Open Scope Q_scope.

(** ** Numbers *)

Definition Qltb (a b : Q) : bool := negb (Qle_bool b a).

(** [max(a, b)] and [min(a, b)] keep the first argument on a tie. *)
Definition py_max (a b : Q) : Q := if Qltb a b then b else a.
Definition py_min (a b : Q) : Q := if Qltb b a then b else a.

(** [sum(l)]: a left fold from [0]. *)
Definition py_sum (l : list Q) : Q := fold_left Qplus l 0.

Definition Qlen {A} (l : list A) : Q := inject_Z (Z.of_nat (List.length l)).

(** [float('inf')] and [float('-inf')] as running bounds: [None] stands
    for the infinite start value. *)
Definition min_into (acc : option Q) (x : Q) : option Q :=
  match acc with None => Some x | Some m => Some (py_min m x) end.
Definition max_into (acc : option Q) (x : Q) : option Q :=
  match acc with None => Some x | Some m => Some (py_max m x) end.

(** [min(gen)] over a non-empty sequence. *)
Definition py_min_list (x : Q) (l : list Q) : Q := fold_left py_min l x.

(** ** Rounding to binary64 *)

(** [n / d] rounded to the nearest integer, ties to the even one
    ([0 <= n], [0 < d]). *)
Definition round_half_even (n d : Z) : Z :=
  let q := (n / d)%Z in
  let r := (n mod d)%Z in
  match (2 * r ?= d)%Z with
  | Lt => q
  | Gt => (q + 1)%Z
  | Eq => if Z.even q then q else (q + 1)%Z
  end.

(** [2 ^ k <= n / d], for [k] of either sign. *)
Definition ratio_ge_pow2 (n d k : Z) : bool :=
  if (0 <=? k)%Z then (d * 2 ^ k <=? n)%Z else (d <=? n * 2 ^ (- k))%Z.

(** The integer part of the binary logarithm of [n / d]. *)
Definition floor_log2_ratio (n d : Z) : Z :=
  let k := (Z.log2 n - Z.log2 d)%Z in
  if ratio_ge_pow2 n d k then k else (k - 1)%Z.

(** The double nearest to [n / d] ([0 < n], [0 < d]): 53 significant
    bits, ties to even, exponents below [-1074] denormalised.  Overflow
    to infinity is not represented. *)
Definition round64_pos (n d : Z) : Q :=
  let e := Z.max (floor_log2_ratio n d - 52) (-1074) in
  if (0 <=? e)%Z
  then inject_Z (round_half_even n (d * 2 ^ e) * 2 ^ e)
  else Qmake (round_half_even (n * 2 ^ (- e)) d) (Z.to_pos (2 ^ (- e))).

Definition round64 (x : Q) : Q :=
  match Qnum x with
  | Z0 => 0
  | Zpos p => round64_pos (Zpos p) (Zpos (Qden x))
  | Zneg p => - round64_pos (Zpos p) (Zpos (Qden x))
  end.

(** The float literal [0.7]. *)
Definition float_0_7 : Q := round64 (7 # 10).

(** ** Stable sort, as [sorted(l, key=...)] and [list.sort(key=...)] *)

Section StableSort.
Context {A : Type} (leb : A -> A -> bool).

Fixpoint insert_sorted (x : A) (l : list A) : list A :=
  match l with
  | [] => [x]
  | y :: l' => if leb x y then x :: l else y :: insert_sorted x l'
  end.

Fixpoint py_sorted (l : list A) : list A :=
  match l with
  | [] => []
  | x :: l' => insert_sorted x (py_sorted l')
  end.
End StableSort.

(** ** Strings *)

Module PyStr.
Local Open Scope string_scope.
Local Open Scope nat_scope.

Definition code (c : ascii) : nat := nat_of_ascii c.

Definition between (lo hi n : nat) : bool := (lo <=? n) && (n <=? hi).

(** [str.isspace], the class [\s] of [re] on [str]. *)
Definition is_space (c : ascii) : bool :=
  let n := code c in
  between 9 13 n || between 28 32 n || (n =? 133) || (n =? 160).

(** The class [\d]. *)
Definition is_digit (c : ascii) : bool := between 48 57 (code c).

(** The class [[a-zA-Z]]. *)
Definition is_ascii_letter (c : ascii) : bool :=
  let n := code c in between 65 90 n || between 97 122 n.

(** The class [\w]: alphanumeric characters and the underscore. *)
Definition is_word_char (c : ascii) : bool :=
  let n := code c in
  is_digit c || is_ascii_letter c || (n =? 95)
  || (n =? 170) || (n =? 178) || (n =? 179) || (n =? 181)
  || (n =? 185) || (n =? 186) || between 188 190 n
  || between 192 214 n || between 216 246 n || between 248 255 n.

Definition lower_char (c : ascii) : ascii :=
  let n := code c in
  if between 65 90 n || between 192 214 n || between 216 222 n
  then ascii_of_nat (n + 32) else c.

(** [s.lower()] *)
Fixpoint lower (s : string) : string :=
  match s with
  | EmptyString => EmptyString
  | String c s' => String (lower_char c) (lower s')
  end.

(** Truthiness of a string: it is not empty. *)
Definition truthy (s : string) : bool :=
  match s with EmptyString => false | String _ _ => true end.

Fixpoint lstrip (s : string) : string :=
  match s with
  | EmptyString => EmptyString
  | String c s' => if is_space c then lstrip s' else s
  end.

Fixpoint rev_onto (s acc : string) : string :=
  match s with
  | EmptyString => acc
  | String c s' => rev_onto s' (String c acc)
  end.

Definition rev (s : string) : string := rev_onto s EmptyString.

(** [s.strip()] *)
Definition strip (s : string) : string := rev (lstrip (rev (lstrip s))).

(** [s.strip() != ''], also the truthiness of [s.strip()]. *)
Definition nonblank (s : string) : bool := truthy (strip s).

(** [k in s] *)
Fixpoint contains (k s : string) : bool :=
  prefix k s
  || match s with
     | EmptyString => false
     | String _ s' => contains k s'
     end.

Fixpoint exists_char (p : ascii -> bool) (s : string) : bool :=
  match s with
  | EmptyString => false
  | String c s' => p c || exists_char p s'
  end.

(** Some character of [s] is not white space. *)
Definition has_nonspace (s : string) : bool :=
  exists_char (fun c => negb (is_space c)) s.

(** [s.count('\n')] *)
Fixpoint count_char (p : ascii -> bool) (s : string) : nat :=
  match s with
  | EmptyString => 0
  | String c s' => (if p c then 1 else 0) + count_char p s'
  end.

Definition is_newline (c : ascii) : bool := code c =? 10.

(** [len(s.split())]: the number of maximal runs of non-space
    characters; [in_tok] tells whether the previous character was part
    of a token. *)
Fixpoint count_tokens (in_tok : bool) (s : string) : nat :=
  match s with
  | EmptyString => 0
  | String c s' =>
      if is_space c then count_tokens false s'
      else (if in_tok then 0 else 1) + count_tokens true s'
  end.

(** [re.search(r':\s*\S', s)]: some colon is followed, after any run
    of white space, by a character that is not white space. *)
Fixpoint search_metadata (s : string) : bool :=
  match s with
  | EmptyString => false
  | String c s' =>
      ((code c =? 58) && truthy (lstrip s')) || search_metadata s'
  end.

(** [sep.join(l)] *)
Definition join (sep : string) (l : list string) : string := concat sep l.

Definition MARK : string := "#$ ".
End PyStr.

(** ** Data model *)

(** A word of the page: the tuple [(text, x0, y0, x1, y1)]. *)
Record word : Type := Word {
  w_text : string;
  w_x0 : Q;
  w_y0 : Q;
  w_x1 : Q;
  w_y1 : Q
}.

(** A bounding box [(x0, top, x1, bottom)]. *)
Record bbox : Type := BBox {
  b_x0 : Q;
  b_top : Q;
  b_x1 : Q;
  b_bottom : Q
}.

(** A cell is the pair [(bbox, text)], either part possibly [None]. *)
Definition cell : Type := (option bbox * option string)%type.
Definition row : Type := list cell.
Definition table : Type := list row.

(** A column boundary [(x0, x1)]. *)
Definition boundary : Type := (Q * Q)%type.

(** Truthiness of a cell text: neither [None] nor empty. *)
Definition text_truthy (t : option string) : bool :=
  match t with
  | Some s => PyStr.truthy s
  | None => false
  end.

(** ** [find_column_for_word] *)

Definition word_center (word_x0 word_x1 : Q) : Q := (word_x0 + word_x1) / 2.

(** The body of the loop for one column: [true] when the function
    returns at this column. *)
Definition column_accepts (word_x0 word_x1 : Q) (col : boundary) : bool :=
  let '(col_x0, col_x1) := col in
  let overlap_start := py_max word_x0 col_x0 in
  let overlap_end := py_min word_x1 col_x1 in
  if Qltb overlap_start overlap_end then
    let overlap_width := overlap_end - overlap_start in
    let word_width := word_x1 - word_x0 in
    let col_width := col_x1 - col_x0 in
    if Qltb 0 word_width
       && (Qltb (1#2) (overlap_width / word_width)
           || Qltb (1#2) (overlap_width / col_width))
    then true
    else if Qle_bool col_x0 word_x0 && Qle_bool word_x1 col_x1 then true
    else if Qle_bool col_x0 (word_center word_x0 word_x1)
            && Qle_bool (word_center word_x0 word_x1) col_x1 then true
    else false
  else false.

(** The loop over [enumerate(column_boundaries)], from index [col_idx]. *)
Fixpoint find_column_from (col_idx : Z) (word_x0 word_x1 : Q)
    (column_boundaries : list boundary) : Z :=
  match column_boundaries with
  | [] => (-1)%Z
  | col :: rest =>
      if column_accepts word_x0 word_x1 col then col_idx
      else find_column_from (col_idx + 1)%Z word_x0 word_x1 rest
  end.

Definition find_column_for_word (word_x0 word_x1 : Q)
    (column_boundaries : list boundary) : Z :=
  find_column_from 0%Z word_x0 word_x1 column_boundaries.

(** The four criteria of the word-form contract, each taken on its own,
    with no test that the overlap is positive. *)
Definition overlap_width (word_x0 word_x1 : Q) (col : boundary) : Q :=
  py_min word_x1 (snd col) - py_max word_x0 (fst col).





(** ** [separate_rows_by_vertical_gap] *)

(** The sort key [(w[2], w[1])], compared as tuples. *)
Definition key_y0_x0_leb (a b : word) : bool :=
  if Qltb (w_y0 a) (w_y0 b) then true
  else if Qltb (w_y0 b) (w_y0 a) then false
  else Qle_bool (w_x0 a) (w_x0 b).

(** The sort key [w[1]]. *)
Definition key_x0_leb (a b : word) : bool := Qle_bool (w_x0 a) (w_x0 b).

Definition word_height (w : word) : Q := w_y1 w - w_y0 w.

(** [avg_word_height]: the mean of the positive heights among the first
    ten sorted words, as the true division gives it, [10] when there is
    none. *)
Definition avg_word_height (sorted_words : list word) : Q :=
  let sample_words := firstn (Nat.min (List.length sorted_words) 10) sorted_words in
  let word_heights :=
    filter (fun h => Qltb 0 h) (map word_height sample_words) in
  match word_heights with
  | [] => 10
  | _ => round64 (py_sum word_heights / Qlen word_heights)
  end.

(** [avg_word_height * 0.7], a product of floats. *)
Definition gap_threshold (sorted_words : list word) : Q :=
  round64 (avg_word_height sorted_words * float_0_7).

(** The walk over [sorted_words[1:]], carrying [rows], [current_row] and
    [current_row_max_y1]; [close_row] is the final "add the last row". *)
Definition close_row (sort_row : list word -> list word)
    (rows : list (list word)) (current_row : list word) : list (list word) :=
  match current_row with
  | [] => rows
  | _ => rows ++ [sort_row current_row]
  end.

Fixpoint gap_walk (sort_row : list word -> list word) (threshold : Q)
    (rows : list (list word)) (current_row : list word)
    (current_row_max_y1 : Q) (rest : list word) : list (list word) :=
  match rest with
  | [] => close_row sort_row rows current_row
  | w :: rest' =>
      let vertical_gap := w_y0 w - current_row_max_y1 in
      if Qltb threshold vertical_gap
      then gap_walk sort_row threshold (rows ++ [sort_row current_row])
             [w] (w_y1 w) rest'
      else gap_walk sort_row threshold rows (current_row ++ [w])
             (py_max current_row_max_y1 (w_y1 w)) rest'
  end.

Definition separate_rows_by_vertical_gap (cell_words : list word)
    : list (list word) :=
  match cell_words with
  | [] => []
  | _ =>
      let sorted_words := py_sorted key_y0_x0_leb cell_words in
      match sorted_words with
      | [] => []
      | first :: rest =>
          gap_walk (py_sorted key_x0_leb) (gap_threshold sorted_words)
            [] [first] (w_y1 first) rest
      end
  end.

(** The running maximum bottom after the words [ws], starting from
    [m]. *)
Fixpoint max_bottom (m : Q) (ws : list word) : Q :=
  match ws with
  | [] => m
  | w :: ws' => max_bottom (py_max m (w_y1 w)) ws'
  end.

(** The segmentation law in words.  [Stays thr m g]: each word of [g], in
    turn, has a top that exceeds the running maximum bottom (starting
    from [m]) by at most [thr], so it joins the current row.
    [Segmented thr ws rows]: [rows] cuts the sequence [ws] into
    consecutive non-empty rows; inside a row every word after the first
    stays, and the first word of every later row has a top that exceeds
    the maximum bottom of the row before it by more than [thr]. *)
Inductive Stays (thr : Q) : Q -> list word -> Prop :=
| Stays_nil : forall m, Stays thr m []
| Stays_cons : forall m w g,
    w_y0 w - m <= thr ->
    Stays thr (py_max m (w_y1 w)) g ->
    Stays thr m (w :: g).

Inductive Segmented (thr : Q) : list word -> list (list word) -> Prop :=
| Seg_nil : Segmented thr [] []
| Seg_last : forall w g,
    Stays thr (w_y1 w) g ->
    Segmented thr (w :: g) [w :: g]
| Seg_cut : forall w g w' ws rows,
    Stays thr (w_y1 w) g ->
    thr < w_y0 w' - max_bottom (w_y1 w) g ->
    Segmented thr (w' :: ws) rows ->
    Segmented thr (w :: g ++ w' :: ws) ((w :: g) :: rows).

(** A row sorted by [x0]: every word is left of, or level with, all the
    words after it. *)
Definition sorted_by_x0 (r : list word) : Prop :=
  StronglySorted (fun a b => (w_x0 a <= w_x0 b)%Q) r.

(** ** Exceptions *)

(** [FormatFieldError] stands for the exception [str.format] raises
    when the text it is applied to holds a replacement field or a single
    brace: [ValueError], [IndexError], [KeyError], [AttributeError] or
    [TypeError], according to the field. *)
Inductive exn : Type :=
| UnboundLocalError (name : string)
| IndexError
| FormatFieldError.

Inductive result (A : Type) : Type :=
| Ok (a : A)
| Raise (e : exn).
Arguments Ok {A} a.
Arguments Raise {A} e.

(** ** Header detection (the first half of the row loop) *)

Local Open Scope string_scope.

Definition COLUMN_KEYWORDS : list string :=
  [ "item"; "description"; "product"; "name"; "particulars";
    "qty"; "quantity"; "rate"; "price"; "amount"; "total";
    "gst"; "tax"; "hsn"; "code"; "unit"; "net"; "discount" ].

Definition bbox_is_none (c : cell) : bool :=
  match fst c with Some _ => false | None => true end.

Definition none_count_in_row (row_cells : row) : nat :=
  List.length (filter bbox_is_none row_cells).

(** [row_text_content]: the lowered texts of the cells whose text is
    truthy. *)
Definition row_text_content (row_cells : row) : list string :=
  flat_map (fun c : cell =>
              match snd c with
              | Some t => if PyStr.truthy t then [PyStr.lower t] else []
              | None => []
              end) row_cells.

(** The inner [for keyword in COLUMN_KEYWORDS] loop for one text. *)
Definition keyword_hits (t : string) : nat :=
  List.length (filter (fun k => PyStr.contains k t) COLUMN_KEYWORDS).

(** One turn of the loop over [row_text_content], on the pair
    [(matched_keyword_count, row_contains_metadata_pattern)]. *)
Definition header_step (acc : nat * bool) (t : string) : nat * bool :=
  if PyStr.truthy t && PyStr.nonblank t
  then ((fst acc + keyword_hits t)%nat, snd acc || PyStr.search_metadata t)
  else acc.

Definition header_stats (row_cells : row) : nat * bool :=
  fold_left header_step (row_text_content row_cells) (0%nat, false).

Definition matched_keyword_count (row_cells : row) : nat :=
  fst (header_stats row_cells).

Definition row_contains_metadata_pattern (row_cells : row) : bool :=
  snd (header_stats row_cells).

(** [matched_keyword_count >= 3 and not row_contains_metadata_pattern] *)
Definition row_is_header (row_cells : row) : bool :=
  (3 <=? matched_keyword_count row_cells)%nat
  && negb (row_contains_metadata_pattern row_cells).

(** The header test in the words of the contract: at least three
    keyword matches, and no cell text with the metadata pattern. *)
Definition qualifies (row_cells : row) : Prop :=
  (3 <= matched_keyword_count row_cells)%nat
  /\ forall (c : cell) (t : string),
       In c row_cells -> snd c = Some t -> PyStr.search_metadata t = false.

(** ** Corruption marking (the second half of the row loop) *)

(** The two locals of [print_formatted_output] that are assigned only
    inside a conditional and read outside it. *)
Record locals : Type := Locals {
  current_cell_words : option (list word);
  avg_word_width : option Q
}.

Definition unbound : locals := Locals None None.

(** Both locals can be read: the word list is assigned, and so is the
    average width whenever the list has more than one word. *)
Definition locals_bound (lv : locals) : Prop :=
  match current_cell_words lv with
  | None => False
  | Some ws => (1 < List.length ws)%nat -> avg_word_width lv <> None
  end.

(** Condition (a): more than three line breaks and mixed content. *)
Definition should_mark_based_on_content_and_newlines
    (cell_text : option string) : bool :=
  match cell_text with
  | Some t =>
      PyStr.truthy t
      && (3 <? PyStr.count_char PyStr.is_newline t)%nat
      && (PyStr.exists_char PyStr.is_digit t
          && PyStr.exists_char PyStr.is_ascii_letter t
          && PyStr.exists_char
               (fun c => negb (PyStr.is_word_char c || PyStr.is_space c)) t
          && (1 <? PyStr.count_tokens false t)%nat)
  | None => false
  end.

(** A page word lies in the cell's box, with tolerance 2. *)
Definition word_in_cell (bb : bbox) (w : word) : bool :=
  Qle_bool (b_x0 bb - 2) (w_x0 w) && Qle_bool (w_x1 w) (b_x1 bb + 2)
  && Qle_bool (b_top bb - 2) (w_y0 w) && Qle_bool (w_y1 w) (b_bottom bb + 2).

(** [ws[k+1][1] - ws[k][3]] for [k] in [range(len(ws) - 1)]. *)
Fixpoint consecutive_gaps (ws : list word) : list Q :=
  match ws with
  | a :: ((b :: _) as ws') => (w_x0 b - w_x1 a)%Q :: consecutive_gaps ws'
  | _ => []
  end.

Definition word_width (w : word) : Q := (w_x1 w - w_x0 w)%Q.

(** Condition (b) with its assignments to the two locals. *)
Definition horizontal_gap_check (page_words : list word) (lv : locals)
    (c : cell) : locals * bool :=
  match c with
  | (Some bb, Some t) =>
      if PyStr.truthy t then
        let cell_words := filter (word_in_cell bb) page_words in
        if (1 <? List.length cell_words)%nat then
          let cell_words := py_sorted key_x0_leb cell_words in
          let word_widths := map word_width cell_words in
          let avg :=
            match word_widths with
            | [] => 10%Q
            | _ => (py_sum word_widths / Qlen word_widths)%Q
            end in
          let horizontal_gap_threshold := (avg * (3#2))%Q in
          (Locals (Some cell_words) (Some avg),
           existsb (fun gap => Qltb horizontal_gap_threshold gap)
             (consecutive_gaps cell_words))
        else (Locals (Some cell_words) (avg_word_width lv), false)
      else (lv, false)
  | _ => (lv, false)
  end.

(** Condition (c): it reads both locals, whatever assigned them. *)
Definition sum_of_gaps_check (lv : locals) : result bool :=
  match current_cell_words lv with
  | None => Raise (UnboundLocalError "current_cell_words")
  | Some ws =>
      if (1 <? List.length ws)%nat then
        let total_gap_in_cell := py_sum (consecutive_gaps ws) in
        match avg_word_width lv with
        | None => Raise (UnboundLocalError "avg_word_width")
        | Some avg => Ok (Qltb avg total_gap_in_cell)
        end
      else Ok false
  end.

Definition text_nonblank (t : option string) : bool :=
  match t with
  | Some s => PyStr.nonblank s
  | None => false
  end.

(** [f"#$ {original_cell_text}"] *)
Definition marked_text (t : option string) : option string :=
  match t with
  | Some s => Some (PyStr.MARK ++ s)
  | None => Some (PyStr.MARK ++ "None")
  end.

(** The body of the loop over the cells of a candidate row. *)
Definition mark_cell (page_words : list word) (lv : locals) (c : cell)
    : result (locals * cell) :=
  let a := should_mark_based_on_content_and_newlines (snd c) in
  let '(lv', b) := horizontal_gap_check page_words lv c in
  match sum_of_gaps_check lv' with
  | Raise e => Raise e
  | Ok s =>
      if (a || b || s) && text_truthy (snd c) && text_nonblank (snd c)
      then Ok (lv', (fst c, marked_text (snd c)))
      else Ok (lv', c)
  end.

(** The loop over the cells: the row as the loop leaves it (the cells
    are replaced in place, so a raise keeps what was written before it)
    and the outcome. *)
Fixpoint mark_cells (page_words : list word) (lv : locals) (cells : row)
    : row * result locals :=
  match cells with
  | [] => ([], Ok lv)
  | c :: cells' =>
      match mark_cell page_words lv c with
      | Raise e => (cells, Raise e)
      | Ok (lv', c') =>
          let '(out, r) := mark_cells page_words lv' cells' in
          (c' :: out, r)
      end
  end.

(** The per-table state of the row loop. *)
Record scan_state : Type := ScanState {
  header_found_in_table : bool;
  header_row_index : Z;
  scan_locals : locals
}.

Definition scan_start (lv : locals) : scan_state := ScanState false (-1)%Z lv.

(** The header part of one turn of the row loop. *)
Definition detect_header (st : scan_state) (row_idx : Z) (row_cells : row)
    : scan_state :=
  if row_is_header row_cells
  then ScanState true row_idx (scan_locals st)
  else st.

(** One turn of the row loop. *)
Definition scan_row (page_words : list word) (st : scan_state)
    (row_idx : Z) (row_cells : row) : row * result scan_state :=
  let st1 := detect_header st row_idx row_cells in
  if header_found_in_table st1
     && (header_row_index st1 <? row_idx)%Z
     && (1 <? none_count_in_row row_cells)%nat
  then
    let '(out, r) := mark_cells page_words (scan_locals st1) row_cells in
    (out,
     match r with
     | Ok lv' =>
         Ok (ScanState (header_found_in_table st1) (header_row_index st1) lv')
     | Raise e => Raise e
     end)
  else (row_cells, Ok st1).

(** The loop over [enumerate(table_rows)], from index [row_idx]. *)
Fixpoint scan_rows (page_words : list word) (st : scan_state)
    (row_idx : Z) (table_rows : table) : table * result scan_state :=
  match table_rows with
  | [] => ([], Ok st)
  | row_cells :: rest =>
      match scan_row page_words st row_idx row_cells with
      | (out, Raise e) => (out :: rest, Raise e)
      | (out, Ok st') =>
          let '(outs, r) := scan_rows page_words st' (row_idx + 1)%Z rest in
          (out :: outs, r)
      end
  end.

(** Header detection and marking of one table, entered with the locals
    [lv] left by the tables scanned before it. *)
Definition scan_table (page_words : list word) (lv : locals)
    (table_rows : table) : table * result scan_state :=
  scan_rows page_words (scan_start lv) 0%Z table_rows.

(** The Header Detector alone: the row loop with the marking part left
    out, on the pair [(header_found_in_table, header_row_index)]. *)
Definition header_fields (st : scan_state) : bool * Z :=
  (header_found_in_table st, header_row_index st).

Definition detect_step (h : bool * Z) (row_idx : Z) (row_cells : row)
    : bool * Z :=
  if row_is_header row_cells then (true, row_idx) else h.

Fixpoint detect_rows (h : bool * Z) (row_idx : Z) (table_rows : table)
    : bool * Z :=
  match table_rows with
  | [] => h
  | row_cells :: rest =>
      detect_rows (detect_step h row_idx row_cells) (row_idx + 1)%Z rest
  end.

(** What marking does to a cell: the text gets the prefix, the box is
    kept. *)
Definition cell_marked_from (c c' : cell) : Prop :=
  exists text, snd c = Some text /\ c' = (fst c, Some (PyStr.MARK ++ text)).

Definition cell_kept_or_marked (c c' : cell) : Prop :=
  c' = c \/ cell_marked_from c c'.

(** ** [create_structured_table] *)

(** [l[i]] for a Python index, negative indices counting from the end. *)
Definition py_index {A} (l : list A) (i : Z) : option A :=
  if (0 <=? i)%Z then nth_error l (Z.to_nat i)
  else if (0 <=? Z.of_nat (List.length l) + i)%Z
       then nth_error l (Z.to_nat (Z.of_nat (List.length l) + i))
       else None.

(** [l[i] = f(l[i])] for an index in range. *)
Fixpoint update_at {A} (i : nat) (f : A -> A) (l : list A) : list A :=
  match l, i with
  | [], _ => []
  | x :: l', O => f x :: l'
  | x :: l', S i' => x :: update_at i' f l'
  end.

(** Column boundaries: [(x0, x1)] of the header cells that have a box. *)
Definition column_boundaries_of (header_cells : row) : list boundary :=
  flat_map (fun c : cell =>
              match fst c with
              | Some bb => [(b_x0 bb, b_x1 bb)]
              | None => []
              end) header_cells.

(** [cell_text and cell_text.startswith("#$")] for some cell. *)
Definition cell_is_marked (c : cell) : bool :=
  match snd c with
  | Some t => PyStr.truthy t && prefix "#$" t
  | None => false
  end.

Definition current_row_has_marked_cells (original_row_cells : row) : bool :=
  existsb cell_is_marked original_row_cells.

(** [(row_min_y, row_max_y)] over the cells with a box; [None] while both
    still hold their infinite start values. *)
Definition span_step (acc : option (Q * Q)) (c : cell) : option (Q * Q) :=
  match fst c with
  | Some bb =>
      match acc with
      | None => Some (b_top bb, b_bottom bb)
      | Some (mn, mx) => Some (py_min mn (b_top bb), py_max mx (b_bottom bb))
      end
  | None => acc
  end.

Definition row_span (original_row_cells : row) : option (Q * Q) :=
  fold_left span_step original_row_cells None.

Definition tolerance_y : Q := 2.

(** The three-way vertical overlap test of a word against a span. *)
Definition word_in_span (mn mx : Q) (w : word) : bool :=
  (Qle_bool (mn - tolerance_y) (w_y0 w) && Qle_bool (w_y0 w) (mx + tolerance_y))
  || (Qle_bool (mn - tolerance_y) (w_y1 w) && Qle_bool (w_y1 w) (mx + tolerance_y))
  || (Qle_bool (w_y0 w) (mn - tolerance_y) && Qle_bool (mx + tolerance_y) (w_y1 w)).

Definition col_center (col : boundary) : Q := ((fst col + snd col) / 2)%Q.

(** The closest-centre loop: [(min_dist, closest_col_idx)], with [None]
    for the infinite start distance. *)
Fixpoint closest_from (i : Z) (center : Q) (best : option Q) (best_idx : Z)
    (cols : list boundary) : Z :=
  match cols with
  | [] => best_idx
  | col :: rest =>
      let dist := Qabs (center - col_center col) in
      let better :=
        match best with
        | None => true
        | Some d => Qltb dist d
        end in
      if better then closest_from (i + 1)%Z center (Some dist) i rest
      else closest_from (i + 1)%Z center best best_idx rest
  end.

Definition closest_column (x0 x1 : Q) (cols : list boundary) : Z :=
  closest_from 0%Z (word_center x0 x1) None (-1)%Z cols.

(** The column a word is put in: [find_column_for_word], then the
    closest centre. *)
Definition column_of_word (cols : list boundary) (w : word) : Z :=
  let col_idx := find_column_for_word (w_x0 w) (w_x1 w) cols in
  if negb (col_idx =? -1)%Z then col_idx
  else closest_column (w_x0 w) (w_x1 w) cols.

(** [words_in_cols[col].append(word_text)] when [col] is not [-1]. *)
Definition place_word (cols : list boundary) (words_in_cols : list (list string))
    (w : word) : list (list string) :=
  let col := column_of_word cols w in
  if negb (col =? -1)%Z
  then update_at (Z.to_nat col) (fun ws => (ws ++ [w_text w])%list) words_in_cols
  else words_in_cols.

Definition join_column (ws : list string) : string :=
  match ws with
  | [] => ""
  | _ => PyStr.join " " ws
  end.

(** [any(cell.strip() for cell in r)] *)
Definition any_nonblank (r : list string) : bool := existsb PyStr.nonblank r.

(** A structured row with its vertical sort key. *)
Definition positioned : Type := (Q * list string)%type.

(** One logical sub-row of a marked row. *)
Definition structure_sub_row (cols : list boundary) (row_min_y : Q)
    (sub_row_words : list word) : list positioned :=
  let words_in_cols :=
    fold_left (place_word cols) sub_row_words (repeat [] (List.length cols)) in
  let structured_sub_row := map join_column words_in_cols in
  if any_nonblank structured_sub_row then
    let joined := PyStr.join " " structured_sub_row in
    let words_for_sub_row_y_pos :=
      filter (fun w => PyStr.contains (w_text w) joined) sub_row_words in
    let sub_row_y_pos :=
      match map w_y0 words_for_sub_row_y_pos with
      | [] => row_min_y
      | y :: ys => py_min_list y ys
      end in
    [(sub_row_y_pos, structured_sub_row)]
  else [].

(** The marked-row path. *)
Definition marked_row_entries (cols : list boundary) (page_words : list word)
    (original_row_cells : row) : list positioned :=
  match row_span original_row_cells with
  | None => []
  | Some (row_min_y, row_max_y) =>
      let words_in_this_original_row :=
        filter (word_in_span row_min_y row_max_y) page_words in
      let logical_sub_rows :=
        separate_rows_by_vertical_gap words_in_this_original_row in
      flat_map (structure_sub_row cols row_min_y) logical_sub_rows
  end.

(** The page words collected for an unmarked row. *)
Definition words_in_raw_row (page_words : list word) (original_row_cells : row)
    : list word :=
  match row_span original_row_cells with
  | None => []
  | Some (mn, mx) => filter (word_in_span mn mx) page_words
  end.

(** The best-overlap loop of the cell form: [(max_overlap_width,
    best_col_idx)]. *)
Fixpoint best_overlap_from (i : Z) (cell_x0 cell_x1 : Q) (max_overlap_width : Q)
    (best_col_idx : Z) (cols : list boundary) : Z :=
  match cols with
  | [] => best_col_idx
  | (col_x0, col_x1) :: rest =>
      let overlap_x_start := py_max cell_x0 col_x0 in
      let overlap_x_end := py_min cell_x1 col_x1 in
      if Qltb overlap_x_start overlap_x_end
         && Qltb max_overlap_width (overlap_x_end - overlap_x_start)
      then best_overlap_from (i + 1)%Z cell_x0 cell_x1
             (overlap_x_end - overlap_x_start)%Q i rest
      else best_overlap_from (i + 1)%Z cell_x0 cell_x1
             max_overlap_width best_col_idx rest
  end.

(** [assigned_col] of a cell with a box. *)
Definition assigned_col (cols : list boundary) (bb : bbox) : Z :=
  let best_col_idx := best_overlap_from 0%Z (b_x0 bb) (b_x1 bb) 0 (-1)%Z cols in
  if negb (best_col_idx =? -1)%Z then best_col_idx
  else closest_column (b_x0 bb) (b_x1 bb) cols.

(** [if m[col]: m[col] += " " + text else: m[col] = text] *)
Definition add_text (cell_text : string) (old : string) : string :=
  if PyStr.truthy old then old ++ " " ++ cell_text else cell_text.

(** One turn of the loop over the cells of an unmarked row. *)
Definition map_raw_cell (cols : list boundary) (mapped_raw_row : list string)
    (c : cell) : list string :=
  match snd c with
  | None => mapped_raw_row
  | Some cell_text =>
      match fst c with
      | Some bb =>
          let col := assigned_col cols bb in
          if negb (col =? -1)%Z
          then update_at (Z.to_nat col) (add_text cell_text) mapped_raw_row
          else if (0 <? List.length cols)%nat
               then update_at 0 (add_text cell_text) mapped_raw_row
               else mapped_raw_row
      | None =>
          if (0 <? List.length cols)%nat
          then update_at 0 (add_text cell_text) mapped_raw_row
          else mapped_raw_row
      end
  end.

Definition mapped_raw_row (cols : list boundary) (original_row_cells : row)
    : list string :=
  fold_left (map_raw_cell cols) original_row_cells
    (repeat "" (List.length cols)).

(** [raw_row_y_pos]: the least top of the collected words, or
    [original_row_idx * 100]. *)
Definition raw_row_y_pos (page_words : list word) (original_row_idx : Z)
    (original_row_cells : row) : Q :=
  match map w_y0 (words_in_raw_row page_words original_row_cells) with
  | [] => inject_Z (original_row_idx * 100)
  | y :: ys => py_min_list y ys
  end.

(** The unmarked-row path. *)
Definition raw_row_entries (cols : list boundary) (page_words : list word)
    (original_row_idx : Z) (original_row_cells : row) : list positioned :=
  let mapped := mapped_raw_row cols original_row_cells in
  if any_nonblank mapped
  then [(raw_row_y_pos page_words original_row_idx original_row_cells, mapped)]
  else [].

(** What one row of the source table appends to [rows_with_positions]. *)
Definition row_entries (cols : list boundary) (page_words : list word)
    (original_row_idx : Z) (original_row_cells : row) : list positioned :=
  if current_row_has_marked_cells original_row_cells
  then marked_row_entries cols page_words original_row_cells
  else raw_row_entries cols page_words original_row_idx original_row_cells.

Fixpoint rows_with_positions_from (cols : list boundary) (page_words : list word)
    (idx : Z) (table_rows : table) : list positioned :=
  match table_rows with
  | [] => []
  | r :: rest =>
      (row_entries cols page_words idx r
       ++ rows_with_positions_from cols page_words (idx + 1)%Z rest)%list
  end.

Definition position_leb (a b : positioned) : bool := Qle_bool (fst a) (fst b).

(** The body of the function once the header row has been read. *)
Definition structure_with_header (table_rows : table) (header_cells : row)
    (page_words : list word) : list (list string) :=
  let column_boundaries := column_boundaries_of header_cells in
  match column_boundaries with
  | [] => []
  | _ =>
      map snd
        (py_sorted position_leb
           (rows_with_positions_from column_boundaries page_words 0%Z table_rows))
  end.

Definition create_structured_table (table_rows : table) (header_row_index : Z)
    (page_words : list word) : result (list (list string)) :=
  if (header_row_index =? -1)%Z
     || (Z.of_nat (List.length table_rows) <=? header_row_index)%Z
  then Ok []
  else
    match py_index table_rows header_row_index with
    | None => Raise IndexError
    | Some header_cells =>
        Ok (structure_with_header table_rows header_cells page_words)
    end.

(** ** [print_formatted_output]: pages, tables, and what is collected *)

Record page_data : Type := PageData {
  tables : list table;
  words : list word
}.

(** The loop over the tables of a page: the tables as the loop leaves
    them, and either the locals and the structured tables collected, or
    the exception. *)
Fixpoint process_tables (page_words : list word) (lv : locals)
    (all_structured_tables : list (list (list string)))
    (page_tables : list table)
    : list table * result (locals * list (list (list string))) :=
  match page_tables with
  | [] => ([], Ok (lv, all_structured_tables))
  | table_rows :: rest =>
      match scan_table page_words lv table_rows with
      | (out, Raise e) => (out :: rest, Raise e)
      | (out, Ok st) =>
          let structured :=
            if header_found_in_table st
            then create_structured_table out (header_row_index st) page_words
            else Ok [] in
          match structured with
          | Raise e => (out :: rest, Raise e)
          | Ok structured_table =>
              let collected :=
                match structured_table with
                | [] => all_structured_tables
                | _ => (all_structured_tables ++ [structured_table])%list
                end in
              let '(outs, r) :=
                process_tables page_words (scan_locals st) collected rest in
              (out :: outs, r)
          end
      end
  end.

(** The word listing of a page.  The line of a word is an f-string, into
    which the second piece of the page key and the text of the word are
    put, and [str.format] is then applied to the result. *)

Definition is_underscore (c : ascii) : bool := (PyStr.code c =? 95)%nat.
Definition is_open_brace (c : ascii) : bool := (PyStr.code c =? 123)%nat.
Definition is_close_brace (c : ascii) : bool := (PyStr.code c =? 125)%nat.

(** The text after the first underscore, if there is one. *)
Fixpoint after_underscore (s : string) : option string :=
  match s with
  | EmptyString => None
  | String c s' => if is_underscore c then Some s' else after_underscore s'
  end.

(** The text before the first underscore. *)
Fixpoint upto_underscore (s : string) : string :=
  match s with
  | EmptyString => EmptyString
  | String c s' =>
      if is_underscore c then EmptyString else String c (upto_underscore s')
  end.

(** [page_name.split('_')[1]]; [None] when the list has one piece only
    and the indexing raises. *)
Definition split_second (page_name : string) : option string :=
  option_map upto_underscore (after_underscore page_name).

(** [str.format] reads the text through: a brace followed by the same
    brace is a literal brace, any other brace opens a replacement field
    or stands alone.  The line has four fields for four arguments, so a
    further field, whatever it is, ends in an exception, as a single
    brace does.  [braces_escaped s]: all braces of [s] come doubled. *)
Fixpoint braces_escaped (s : string) : bool :=
  match s with
  | EmptyString => true
  | String c s' =>
      if is_open_brace c then
        match s' with
        | String c' s'' => is_open_brace c' && braces_escaped s''
        | EmptyString => false
        end
      else if is_close_brace c then
        match s' with
        | String c' s'' => is_close_brace c' && braces_escaped s''
        | EmptyString => false
        end
      else braces_escaped s'
  end.

(** One turn of the loop over [page_data['words']]: what printing the
    line of a word can raise. *)
Definition list_word (page_name : string) (w : word) : result unit :=
  match split_second page_name with
  | None => Raise IndexError
  | Some piece =>
      if braces_escaped piece && braces_escaped (w_text w)
      then Ok tt
      else Raise FormatFieldError
  end.

Fixpoint list_words (page_name : string) (page_words : list word)
    : result unit :=
  match page_words with
  | [] => Ok tt
  | w :: rest =>
      match list_word page_name w with
      | Raise e => Raise e
      | Ok _ => list_words page_name rest
      end
  end.

(** The loop over the pages, in the order of the dictionary: the tables
    of the page, then its word listing. *)
Fixpoint process_pages (lv : locals)
    (all_structured_tables : list (list (list string)))
    (pages : list (string * page_data))
    : list (string * page_data) * result (locals * list (list (list string))) :=
  match pages with
  | [] => ([], Ok (lv, all_structured_tables))
  | (name, pd) :: rest =>
      match process_tables (words pd) lv all_structured_tables (tables pd) with
      | (out, Raise e) => ((name, PageData out (words pd)) :: rest, Raise e)
      | (out, Ok (lv', collected)) =>
          match list_words name (words pd) with
          | Raise e => ((name, PageData out (words pd)) :: rest, Raise e)
          | Ok _ =>
              let '(outs, r) := process_pages lv' collected rest in
              ((name, PageData out (words pd)) :: outs, r)
          end
      end
  end.

(** The function: the page data as it leaves them (cells are marked in
    place) and the structured tables it collects, or the exception.  Of
    the printing, the word listing is kept, the one place where it can
    raise; the other lines printed are plain f-strings. *)
Definition print_formatted_output (coordinates_data : list (string * page_data))
    : list (string * page_data) * result (list (list (list string))) :=
  let '(out, r) := process_pages unbound [] coordinates_data in
  (out,
   match r with
   | Ok (_, collected) => Ok collected
   | Raise e => Raise e
   end).

(** ** Sample tables *)

Local Open Scope string_scope.

Definition ex_header : row :=
  [ (Some (BBox 0 0 50 10), Some "Item");
    (Some (BBox 50 0 100 10), Some "Qty Rate") ].

Definition ex_header_later : row :=
  [ (Some (BBox 0 40 50 50), Some "Description");
    (Some (BBox 50 40 100 50), Some "Amount Total") ].

Definition ex_plain : row :=
  [ (Some (BBox 0 20 50 30), Some "widget");
    (Some (BBox 50 20 100 30), Some "4") ].

Definition ex_metadata : row :=
  [ (Some (BBox 0 60 50 70), Some "Invoice: 12345");
    (Some (BBox 50 60 100 70), Some "Item Qty Rate") ].

Definition ex_words : list word :=
  [ Word "x" 0 12 5 18; Word "y" 40 12 45 18 ].

(** One cell with two widely spaced words, one cell with text and no
    box, one cell with neither. *)
Definition ex_merged : row :=
  [ (Some (BBox 0 10 100 20), Some "x y"); (None, Some "z"); (None, None) ].

Definition ex_merged_marked : row :=
  [ (Some (BBox 0 10 100 20), Some "#$ x y"); (None, Some "#$ z"); (None, None) ].

Definition ex_merged_marked_twice : row :=
  [ (Some (BBox 0 10 100 20), Some "#$ #$ x y"); (None, Some "#$ #$ z");
    (None, None) ].

(** A cell that merges five lines of mixed content, in a row with two
    positions without a box. *)
Definition NL : string := String (ascii_of_nat 10) EmptyString.

Definition ex_multiline_text : string :=
  "a1" ++ NL ++ "-" ++ NL ++ "b2" ++ NL ++ "-" ++ NL ++ "c3".

Definition ex_multiline : row :=
  [ (Some (BBox 0 10 100 20), Some ex_multiline_text);
    (None, None); (None, None) ].

(** A page whose only word is far below every sample row. *)
Definition ex_far_words : list word := [ Word "footer" 0 500 30 510 ].

(** Two grid positions where the detector found no cell. *)
Definition ex_null : row := [ (None, None); (None, None) ].

Local Close Scope string_scope.

(** ** [extract_pdf_coordinates]: the shaping of what pdfplumber returns *)

Local Open Scope string_scope.

(** A table as pdfplumber finds it: the cells of each row ([table.rows],
    each cell a box or [None]) and the text grid of [table.extract()]. *)
Record plumber_table : Type := PlumberTable {
  pt_rows : list (list (option bbox));
  pt_extract : list (list (option string))
}.

(** A word of [page.extract_words()]: the dictionary entries read. *)
Record plumber_word : Type := PlumberWord {
  pw_text : string;
  pw_x0 : Q;
  pw_top : Q;
  pw_x1 : Q;
  pw_bottom : Q
}.

Record plumber_page : Type := PlumberPage {
  pp_tables : list plumber_table;
  pp_words : list plumber_word
}.

(** [enumerate(l)], counting from [i]. *)
Fixpoint enumerate_from {A} (i : nat) (l : list A) : list (nat * A) :=
  match l with
  | [] => []
  | x :: l' => (i, x) :: enumerate_from (S i) l'
  end.

(** [cell_text]: the grid entry when the grid is not empty and both
    indices are in range, [None] otherwise. *)
Definition grid_text (table_text_data : list (list (option string)))
    (row_idx col_idx : nat) : option string :=
  match table_text_data with
  | [] => None
  | _ =>
      match nth_error table_text_data row_idx with
      | Some text_row =>
          match nth_error text_row col_idx with
          | Some cell_text => cell_text
          | None => None
          end
      | None => None
      end
  end.

(** One turn of the loop over [enumerate(row.cells)]. *)
Definition extract_cell (table_text_data : list (list (option string)))
    (row_idx col_idx : nat) (cell_bbox : option bbox) : cell :=
  let cell_text := grid_text table_text_data row_idx col_idx in
  match cell_bbox with
  | Some bb =>
      (Some bb,
       Some (match cell_text with
             | Some t => if PyStr.truthy t then t else ""
             | None => ""
             end))
  | None => (None, None)
  end.

Definition extract_row (table_text_data : list (list (option string)))
    (row_idx : nat) (cells : list (option bbox)) : row :=
  map (fun ic : nat * option bbox =>
         extract_cell table_text_data row_idx (fst ic) (snd ic))
      (enumerate_from 0 cells).

Definition extract_table (t : plumber_table) : table :=
  map (fun ir : nat * list (option bbox) =>
         extract_row (pt_extract t) (fst ir) (snd ir))
      (enumerate_from 0 (pt_rows t)).

Definition extract_word (w : plumber_word) : word :=
  Word (pw_text w) (pw_x0 w) (pw_top w) (pw_x1 w) (pw_bottom w).

Definition extract_page (p : plumber_page) : page_data :=
  PageData (map extract_table (pp_tables p)) (map extract_word (pp_words p)).

(** [f"page_{page_num + 1}"] *)
Definition page_key (page_num : nat) : string :=
  "page_" ++ DecimalString.NilEmpty.string_of_uint (Nat.to_uint (page_num + 1)).

(** The dictionary returned, as the list of its items in insertion
    order (the keys of different pages are different). *)
Definition extract_pdf_coordinates (pages : list plumber_page)
    : list (string * page_data) :=
  map (fun ip : nat * plumber_page => (page_key (fst ip), extract_page (snd ip)))
      (enumerate_from 0 pages).

Local Close Scope string_scope.

(** ** Notions used in the further properties *)

(** A cell as [extract_pdf_coordinates] builds it: a box with a text, or
    neither. *)
Definition extractor_shaped (c : cell) : Prop :=
  match c with
  | (Some _, Some _) => True
  | (None, None) => True
  | _ => False
  end.



(** The average width is assigned whenever the assigned word list has
    more than one word. *)
Definition locals_consistent (lv : locals) : Prop :=
  match current_cell_words lv with
  | None => True
  | Some ws => (1 < List.length ws)%nat -> avg_word_width lv <> None
  end.

(** An outcome that, if it is an exception, is the read of
    [current_cell_words] before assignment. *)
Definition only_unbound_words {A} (r : result A) : Prop :=
  match r with
  | Ok _ => True
  | Raise e => e = UnboundLocalError "current_cell_words"
  end.

(** The word listing of a page cannot raise: the page has no word, or
    its key has a second piece and neither that piece nor the text of a
    word holds a brace that is not doubled. *)
Definition listing_safe (page_name : string) (page_words : list word) : Prop :=
  page_words = []
  \/ exists piece,
       split_second page_name = Some piece
       /\ braces_escaped piece = true
       /\ Forall (fun w => braces_escaped (w_text w) = true) page_words.

(** An outcome that, if it is an exception, is the read of
    [current_cell_words] before assignment or is raised by the word
    listing of one of the pages. *)
Definition unbound_words_or_listing {A} (pages : list (string * page_data))
    (r : result A) : Prop :=
  match r with
  | Ok _ => True
  | Raise e =>
      e = UnboundLocalError "current_cell_words"
      \/ exists p, In p pages /\ list_words (fst p) (words (snd p)) = Raise e
  end.

(** Seven words whose positive heights sum to 30: six with top 0, one
    with top 8, three units below the tallest of the six. *)
Definition ex_seven_words : list word :=
  [ Word "a" 0 0 1 4; Word "b" 2 0 3 4; Word "c" 4 0 5 4; Word "d" 6 0 7 4;
    Word "e" 8 0 9 4; Word "f" 10 0 11 5; Word "g" 0 8 1 13 ].

(** Some cell of the row has a text that is not blank. *)
Definition row_has_text (r : row) : bool :=
  existsb (fun c : cell => text_nonblank (snd c)) r.

(** A cell after marking: kept, or prefixed, and then its text was not
    blank. *)
Definition cell_kept_or_marked_nonblank (c c' : cell) : Prop :=
  c' = c
  \/ exists text,
       snd c = Some text /\ PyStr.nonblank text = true
       /\ c' = (fst c, Some (PyStr.MARK ++ text)%string).

(** Distance between a centre and the centre of a column. *)
Definition center_distance (center : Q) (col : boundary) : Q :=
  Qabs (center - col_center col).

(** The least top among the words [ws], [d] when there is none. *)
Definition least_top (d : Q) (ws : list word) : Q :=
  match map w_y0 ws with
  | [] => d
  | y :: ys => py_min_list y ys
  end.

(** The texts of a row that header detection reads, lowered. *)
Definition lowered_texts (r : row) : list (option string) :=
  map (fun c : cell => option_map PyStr.lower (snd c)) r.

(** * Properties *)

Local Close Scope string_scope.
Local Open Scope Q_scope.

(** ** Comparisons, [max] and [min] *)

Lemma Qltb_lt (a b : Q) : Qltb a b = true <-> a < b.
Proof.
  unfold Qltb. rewrite negb_true_iff. split; intro H.
  - apply Qnot_le_lt. intro Hle. apply Qle_bool_iff in Hle. congruence.
  - destruct (Qle_bool b a) eqn:E; [|reflexivity].
    apply Qle_bool_iff in E. exfalso. exact (Qlt_not_le _ _ H E).
Qed.

Lemma Qltb_ge (a b : Q) : Qltb a b = false <-> b <= a.
Proof.
  unfold Qltb. rewrite negb_false_iff. apply Qle_bool_iff.
Qed.

Lemma Qle_bool_false (a b : Q) : Qle_bool a b = false <-> b < a.
Proof.
  rewrite <- Qltb_lt. unfold Qltb. now rewrite negb_true_iff.
Qed.

Lemma py_max_spec (a b : Q) :
  (a < b /\ py_max a b = b) \/ (b <= a /\ py_max a b = a).
Proof.
  unfold py_max. destruct (Qltb a b) eqn:E.
  - left. split; [now apply Qltb_lt | reflexivity].
  - right. split; [now apply Qltb_ge | reflexivity].
Qed.

Lemma py_min_spec (a b : Q) :
  (b < a /\ py_min a b = b) \/ (a <= b /\ py_min a b = a).
Proof.
  unfold py_min. destruct (Qltb b a) eqn:E.
  - left. split; [now apply Qltb_lt | reflexivity].
  - right. split; [now apply Qltb_ge | reflexivity].
Qed.

(** ** The stable sort *)

Section StableSortFacts.
Context {A : Type} (leb : A -> A -> bool).

Lemma insert_sorted_perm (x : A) (l : list A) :
  Permutation (insert_sorted leb x l) (x :: l).
Proof.
  induction l as [|y l IH]; simpl.
  - apply Permutation_refl.
  - destruct (leb x y).
    + apply Permutation_refl.
    + eapply Permutation_trans; [apply perm_skip, IH | apply perm_swap].
Qed.

Lemma py_sorted_perm (l : list A) : Permutation (py_sorted leb l) l.
Proof.
  induction l as [|x l IH]; simpl.
  - constructor.
  - eapply Permutation_trans; [apply insert_sorted_perm|].
    now apply perm_skip.
Qed.

Lemma py_sorted_nil (l : list A) : py_sorted leb l = [] -> l = [].
Proof.
  intro H. apply Permutation_nil. rewrite <- H.
  apply py_sorted_perm.
Qed.

Hypothesis leb_total : forall a b, leb a b = true \/ leb b a = true.
Hypothesis leb_trans :
  forall a b c, leb a b = true -> leb b c = true -> leb a c = true.

Let le (a b : A) : Prop := leb a b = true.

Lemma insert_sorted_sorted (x : A) (l : list A) :
  StronglySorted le l -> StronglySorted le (insert_sorted leb x l).
Proof.
  induction 1 as [|y l Hs IH Hy]; simpl.
  - constructor; constructor.
  - destruct (leb x y) eqn:E.
    + constructor; [constructor; assumption|].
      constructor; [exact E|].
      eapply Forall_impl; [|exact Hy].
      intros z Hz. exact (leb_trans _ _ _ E Hz).
    + constructor; [exact IH|].
      assert (Hyx : le y x) by (destruct (leb_total x y); [congruence|assumption]).
      eapply Permutation_Forall.
      * apply Permutation_sym, insert_sorted_perm.
      * constructor; assumption.
Qed.

Lemma py_sorted_sorted (l : list A) : StronglySorted le (py_sorted leb l).
Proof.
  induction l as [|x l IH]; simpl.
  - constructor.
  - now apply insert_sorted_sorted.
Qed.
End StableSortFacts.

Lemma key_x0_leb_total (a b : word) :
  key_x0_leb a b = true \/ key_x0_leb b a = true.
Proof.
  unfold key_x0_leb. destruct (Qle_bool (w_x0 a) (w_x0 b)) eqn:E; [now left|].
  right. apply Qle_bool_iff, Qlt_le_weak. now apply Qle_bool_false.
Qed.

Lemma key_x0_leb_trans (a b c : word) :
  key_x0_leb a b = true -> key_x0_leb b c = true -> key_x0_leb a c = true.
Proof.
  unfold key_x0_leb. rewrite !Qle_bool_iff. apply Qle_trans.
Qed.

Lemma StronglySorted_weaken {A} (R S : A -> A -> Prop) (l : list A) :
  (forall a b, R a b -> S a b) -> StronglySorted R l -> StronglySorted S l.
Proof.
  intros HRS. induction 1 as [|x l Hs IH Hx]; constructor.
  - exact IH.
  - eapply Forall_impl; [|exact Hx]. intros b. apply HRS.
Qed.

Lemma py_sorted_by_x0 (l : list word) : sorted_by_x0 (py_sorted key_x0_leb l).
Proof.
  unfold sorted_by_x0.
  eapply StronglySorted_weaken;
    [| apply (py_sorted_sorted key_x0_leb key_x0_leb_total key_x0_leb_trans)].
  intros a b H. now apply Qle_bool_iff.
Qed.

(** Two sorted lists with the same elements are equal when the order is
    antisymmetric on them. *)
Lemma sorted_perm_eq {A} (leb : A -> A -> bool) (l1 : list A) :
  forall l2,
    StronglySorted (fun a b => leb a b = true) l1 ->
    StronglySorted (fun a b => leb a b = true) l2 ->
    Permutation l1 l2 ->
    (forall a b, In a l1 -> In b l1 ->
                 leb a b = true -> leb b a = true -> a = b) ->
    l1 = l2.
Proof.
  induction l1 as [|x l1 IH]; intros l2 H1 H2 Hp Hanti.
  - apply Permutation_nil in Hp. now subst.
  - destruct l2 as [|y l2];
      [apply Permutation_sym, Permutation_nil in Hp; discriminate|].
    inversion H1 as [|? ? Hs1 Hx]; inversion H2 as [|? ? Hs2 Hy]; subst.
    assert (Hxy : x = y).
    { assert (Hyin : In y (x :: l1))
        by (eapply Permutation_in; [apply Permutation_sym, Hp | now left]).
      assert (Hxin : In x (y :: l2))
        by (eapply Permutation_in; [exact Hp | now left]).
      destruct Hyin as [Hyin|Hyin]; [exact Hyin|].
      destruct Hxin as [Hxin|Hxin]; [now symmetry|].
      apply Hanti; [now left | now right | |].
      - rewrite Forall_forall in Hx. now apply Hx.
      - rewrite Forall_forall in Hy. now apply Hy. }
    subst y. f_equal. apply IH; auto.
    + eapply Permutation_cons_inv; exact Hp.
    + intros a b Ha Hb. apply Hanti; now right.
Qed.

Lemma py_sorted_perm_eq {A} (leb : A -> A -> bool) (l l' : list A) :
  (forall a b, leb a b = true \/ leb b a = true) ->
  (forall a b c, leb a b = true -> leb b c = true -> leb a c = true) ->
  (forall a b, In a l -> In b l -> leb a b = true -> leb b a = true -> a = b) ->
  Permutation l' l ->
  py_sorted leb l' = py_sorted leb l.
Proof.
  intros Htot Htrans Hanti Hp.
  apply (sorted_perm_eq leb).
  - exact (py_sorted_sorted leb Htot Htrans l').
  - exact (py_sorted_sorted leb Htot Htrans l).
  - eapply Permutation_trans; [apply py_sorted_perm|].
    eapply Permutation_trans; [exact Hp|].
    apply Permutation_sym, py_sorted_perm.
  - assert (Hin : forall a, In a (py_sorted leb l') -> In a l).
    { intros a Ha. eapply Permutation_in; [exact Hp|].
      eapply Permutation_in; [apply py_sorted_perm | exact Ha]. }
    intros a b Ha Hb. apply Hanti; now apply Hin.
Qed.

Lemma key_y0_x0_leb_spec (a b : word) :
  key_y0_x0_leb a b = true
  <-> w_y0 a < w_y0 b \/ (w_y0 a == w_y0 b /\ w_x0 a <= w_x0 b).
Proof.
  unfold key_y0_x0_leb.
  destruct (Qltb (w_y0 a) (w_y0 b)) eqn:E1.
  - apply Qltb_lt in E1. split; [now left | reflexivity].
  - apply Qltb_ge in E1. destruct (Qltb (w_y0 b) (w_y0 a)) eqn:E2.
    + apply Qltb_lt in E2. split; [discriminate|].
      intros [H|[H _]]; lra.
    + apply Qltb_ge in E2. rewrite Qle_bool_iff. split.
      * intro H. right. split; [lra | exact H].
      * intros [H|[_ H]]; [lra | exact H].
Qed.

Lemma key_y0_x0_leb_total (a b : word) :
  key_y0_x0_leb a b = true \/ key_y0_x0_leb b a = true.
Proof.
  rewrite !key_y0_x0_leb_spec.
  destruct (Q_dec (w_y0 a) (w_y0 b)) as [[H|H]|H].
  - left. now left.
  - right. now left.
  - destruct (Qlt_le_dec (w_x0 b) (w_x0 a)) as [Hx|Hx].
    + right. right. split; [now symmetry | lra].
    + left. right. split; assumption.
Qed.

Lemma key_y0_x0_leb_trans (a b c : word) :
  key_y0_x0_leb a b = true -> key_y0_x0_leb b c = true ->
  key_y0_x0_leb a c = true.
Proof.
  rewrite !key_y0_x0_leb_spec.
  intros [H1|[H1 H1']] [H2|[H2 H2']].
  - left. lra.
  - left. lra.
  - left. lra.
  - right. split; lra.
Qed.

(** ** The row segmenter *)

(** The rows depend on the input through its sorted form only. *)
Lemma separate_rows_sorted_eq (l l' : list word) :
  py_sorted key_y0_x0_leb l' = py_sorted key_y0_x0_leb l ->
  separate_rows_by_vertical_gap l' = separate_rows_by_vertical_gap l.
Proof.
  intro H. unfold separate_rows_by_vertical_gap.
  destruct l as [|x l]; destruct l' as [|x' l'].
  - reflexivity.
  - apply py_sorted_nil in H. discriminate.
  - symmetry in H. apply py_sorted_nil in H. discriminate.
  - now rewrite H.
Qed.

Lemma max_bottom_app (m : Q) (g : list word) (w : word) :
  max_bottom m (g ++ [w]) = py_max (max_bottom m g) (w_y1 w).
Proof.
  revert m. induction g as [|x g IH]; intro m; simpl.
  - reflexivity.
  - apply IH.
Qed.

Lemma Stays_app (thr m : Q) (g : list word) (w : word) :
  Stays thr m g ->
  w_y0 w - max_bottom m g <= thr ->
  Stays thr m (g ++ [w]).
Proof.
  induction 1 as [m|m x g Hx Hg IH]; simpl; intro Hw.
  - constructor; [exact Hw | constructor].
  - constructor; [exact Hx | apply IH, Hw].
Qed.

Lemma Segmented_concat (thr : Q) (ws : list word) (rows : list (list word)) :
  Segmented thr ws rows -> List.concat rows = ws.
Proof.
  induction 1 as [|w g Hg|w g w' ws rows Hg Hcut Hs IH]; simpl.
  - reflexivity.
  - now rewrite app_nil_r.
  - now rewrite IH.
Qed.

Lemma Segmented_nonempty (thr : Q) (ws : list word) (rows : list (list word)) :
  Segmented thr ws rows -> Forall (fun r => r <> []) rows.
Proof.
  induction 1; constructor; try discriminate; try constructor; assumption.
Qed.

(** The walk closes the rows that [Segmented] describes. *)
Lemma gap_walk_segmented (sort_row : list word -> list word) (thr : Q)
    (rest : list word) :
  forall rows first g,
    Stays thr (w_y1 first) g ->
    exists groups,
      gap_walk sort_row thr rows (first :: g) (max_bottom (w_y1 first) g) rest
      = rows ++ map sort_row groups
      /\ Segmented thr (first :: g ++ rest) groups.
Proof.
  induction rest as [|w rest IH]; intros rows first g Hg; simpl.
  - exists [first :: g]. split; [reflexivity|].
    rewrite app_nil_r. now constructor.
  - destruct (Qltb thr (w_y0 w - max_bottom (w_y1 first) g)) eqn:E.
    + destruct (IH (rows ++ [sort_row (first :: g)]) w [] (Stays_nil _ _))
        as [groups [Hwalk Hseg]].
      exists ((first :: g) :: groups). split.
      * simpl in Hwalk. rewrite Hwalk, <- app_assoc. reflexivity.
      * apply Seg_cut; [exact Hg | now apply Qltb_lt | exact Hseg].
    + assert (Hstay : Stays thr (w_y1 first) (g ++ [w]))
        by (apply Stays_app; [exact Hg | now apply Qltb_ge]).
      destruct (IH rows first (g ++ [w]) Hstay) as [groups [Hwalk Hseg]].
      exists groups. split.
      * rewrite max_bottom_app in Hwalk. exact Hwalk.
      * rewrite <- app_assoc in Hseg. exact Hseg.
Qed.

(** The rows returned are the groups cut out of the sorted words, each
    sorted by [x0]. *)
Lemma separate_rows_segmented (cell_words : list word) :
  exists groups,
    separate_rows_by_vertical_gap cell_words
    = map (py_sorted key_x0_leb) groups
    /\ Segmented (gap_threshold (py_sorted key_y0_x0_leb cell_words))
         (py_sorted key_y0_x0_leb cell_words) groups.
Proof.
  unfold separate_rows_by_vertical_gap.
  destruct cell_words as [|c cs].
  - exists []. split; [reflexivity | constructor].
  - remember (py_sorted key_y0_x0_leb (c :: cs)) as sorted_words eqn:Es.
    destruct sorted_words as [|first rest].
    + symmetry in Es. apply py_sorted_nil in Es. discriminate.
    + destruct (gap_walk_segmented (py_sorted key_x0_leb)
                  (gap_threshold (first :: rest)) rest [] first []
                  (Stays_nil _ _)) as [groups [Hwalk Hseg]].
      exists groups. split; [exact Hwalk | exact Hseg].
Qed.

Lemma concat_map_perm {A} (f : list A -> list A) (ls : list (list A)) :
  (forall l, Permutation (f l) l) ->
  Permutation (List.concat (map f ls)) (List.concat ls).
Proof.
  intro Hf. induction ls as [|l ls IH]; simpl.
  - constructor.
  - apply Permutation_app; [apply Hf | exact IH].
Qed.

(** C10. For every input list of words, the rows returned by
    [separate_rows_by_vertical_gap] partition the input: their
    concatenation is a permutation of the input (every word occurs in
    exactly one row, with its multiplicity), every row is non-empty and
    sorted by [x0], and the output is empty exactly when the input is. *)
Theorem separate_rows_partition (cell_words : list word) :
  Permutation (List.concat (separate_rows_by_vertical_gap cell_words)) cell_words
  /\ Forall (fun r => r <> [] /\ sorted_by_x0 r)
       (separate_rows_by_vertical_gap cell_words)
  /\ (separate_rows_by_vertical_gap cell_words = [] <-> cell_words = []).
Proof.
  destruct (separate_rows_segmented cell_words) as [groups [Hrows Hseg]].
  assert (Hperm :
    Permutation (List.concat (separate_rows_by_vertical_gap cell_words)) cell_words).
  { rewrite Hrows.
    eapply Permutation_trans;
      [apply concat_map_perm; intro; apply py_sorted_perm|].
    rewrite (Segmented_concat _ _ _ Hseg). apply py_sorted_perm. }
  split; [exact Hperm|]. split.
  - rewrite Hrows. apply Forall_map.
    eapply Forall_impl; [|exact (Segmented_nonempty _ _ _ Hseg)].
    intros r Hr. split; [|apply py_sorted_by_x0].
    intro Hnil. apply py_sorted_nil in Hnil. contradiction.
  - split; intro H.
    + rewrite H in Hperm. simpl in Hperm. now apply Permutation_nil.
    + subst. reflexivity.
Qed.



(** ** The column mapper, word form *)

(** Under the overlap guard both widths are positive: neither division
    of the ratio tests is by zero. *)
Lemma positive_overlap_widths (x0 x1 c0 c1 : Q) :
  Qltb (py_max x0 c0) (py_min x1 c1) = true ->
  0 < x1 - x0 /\ 0 < c1 - c0.
Proof.
  intro H. apply Qltb_lt in H.
  destruct (py_max_spec x0 c0) as [[? Emax]|[? Emax]];
    destruct (py_min_spec x1 c1) as [[? Emin]|[? Emin]];
    rewrite Emax, Emin in H; split; lra.
Qed.







(** ** The header detector *)

Lemma header_fields_detect (st : scan_state) (idx : Z) (r : row) :
  header_fields (detect_header st idx r) = detect_step (header_fields st) idx r.
Proof.
  unfold detect_header, detect_step. destruct (row_is_header r); reflexivity.
Qed.

(** Either no row is a header and the state is kept, or the state is the
    index of the last header row. *)
Lemma detect_rows_spec (rows : table) :
  forall (h : bool * Z) (idx : Z),
    (Forall (fun r => row_is_header r = false) rows
     /\ detect_rows h idx rows = h)
    \/ (exists k r,
          nth_error rows k = Some r
          /\ row_is_header r = true
          /\ detect_rows h idx rows = (true, (idx + Z.of_nat k)%Z)
          /\ forall j r', (k < j)%nat -> nth_error rows j = Some r' ->
                          row_is_header r' = false).
Proof.
  induction rows as [|r rows IH]; intros h idx; simpl.
  - left. split; [constructor | reflexivity].
  - destruct (IH (detect_step h idx r) (idx + 1)%Z)
      as [[Hall Hd] | [k [r' [Hk [Hr' [Hd Hafter]]]]]].
    + destruct (row_is_header r) eqn:Er.
      * right. exists 0%nat, r. repeat split; try assumption.
        -- rewrite Hd. unfold detect_step. rewrite Er. f_equal. lia.
        -- intros j r' Hj Hn. destruct j as [|j]; [lia|]. simpl in Hn.
           rewrite Forall_forall in Hall. apply Hall.
           eapply nth_error_In, Hn.
      * left. split; [now constructor|].
        rewrite Hd. unfold detect_step. now rewrite Er.
    + right. exists (S k), r'. repeat split; try assumption.
      * rewrite Hd. f_equal. lia.
      * intros j r'' Hj Hn. destruct j as [|j]; [lia|]. simpl in Hn.
        apply (Hafter j r''); [lia | exact Hn].
Qed.

(** The row loop reports what the detector alone computes. *)
Lemma scan_row_header (pw : list word) (st : scan_state) (idx : Z) (r : row)
    (out : row) (st' : scan_state) :
  scan_row pw st idx r = (out, Ok st') ->
  header_fields st' = detect_step (header_fields st) idx r.
Proof.
  unfold scan_row. rewrite <- header_fields_detect.
  destruct (header_found_in_table (detect_header st idx r)
            && (header_row_index (detect_header st idx r) <? idx)%Z
            && (1 <? none_count_in_row r)%nat).
  - destruct (mark_cells pw (scan_locals (detect_header st idx r)) r)
      as [o [lv'|e]]; intro H; inversion H; reflexivity.
  - intro H; inversion H; reflexivity.
Qed.

Lemma scan_rows_header (pw : list word) (rows : table) :
  forall (st : scan_state) (idx : Z) (out : table) (st' : scan_state),
    scan_rows pw st idx rows = (out, Ok st') ->
    header_fields st' = detect_rows (header_fields st) idx rows.
Proof.
  induction rows as [|r rows IH]; intros st idx out st'; simpl.
  - intro H; inversion H; reflexivity.
  - destruct (scan_row pw st idx r) as [o [st1|e]] eqn:Er; [|discriminate].
    destruct (scan_rows pw st1 (idx + 1)%Z rows) as [outs res] eqn:Erest.
    intro H; inversion H; subst.
    rewrite (IH _ _ _ _ Erest), (scan_row_header _ _ _ _ _ _ Er).
    reflexivity.
Qed.

(** The index reported by a completed scan: [-1] when no row is a
    header, the index of the last header row otherwise. *)
Lemma scan_table_header (page_words : list word) (lv : locals)
    (table_rows out : table) (st : scan_state) :
  scan_table page_words lv table_rows = (out, Ok st) ->
  (Forall (fun r => row_is_header r = false) table_rows
   /\ header_fields st = (false, (-1)%Z))
  \/ (exists k r,
        nth_error table_rows k = Some r
        /\ row_is_header r = true
        /\ header_fields st = (true, Z.of_nat k)
        /\ forall j r', (k < j)%nat -> nth_error table_rows j = Some r' ->
                        row_is_header r' = false).
Proof.
  unfold scan_table. intro H.
  apply scan_rows_header in H. simpl in H. rewrite H.
  apply (detect_rows_spec table_rows (false, (-1)%Z) 0%Z).
Qed.

(** ** Strings: metadata and blank texts *)

Module PyStrFacts.
Import PyStr.

Lemma is_space_lower_char (c : ascii) : is_space (lower_char c) = is_space c.
Proof. destruct c as [[] [] [] [] [] [] [] []]; reflexivity. Qed.

Lemma colon_lower_char (c : ascii) :
  (code (lower_char c) =? 58)%nat = (code c =? 58)%nat.
Proof. destruct c as [[] [] [] [] [] [] [] []]; reflexivity. Qed.

Lemma colon_not_space (c : ascii) :
  (code c =? 58)%nat = true -> is_space c = false.
Proof.
  destruct c as [[] [] [] [] [] [] [] []];
    first [reflexivity | discriminate].
Qed.

Lemma truthy_lower (s : string) : truthy (lower s) = truthy s.
Proof. destruct s; reflexivity. Qed.

Lemma lstrip_lower (s : string) : lstrip (lower s) = lower (lstrip s).
Proof.
  induction s as [|c s IH]; simpl.
  - reflexivity.
  - rewrite is_space_lower_char. destruct (is_space c); [exact IH | reflexivity].
Qed.

Lemma search_metadata_lower (s : string) :
  search_metadata (lower s) = search_metadata s.
Proof.
  induction s as [|c s IH]; simpl.
  - reflexivity.
  - now rewrite colon_lower_char, lstrip_lower, truthy_lower, IH.
Qed.

Lemma truthy_lstrip (s : string) : truthy (lstrip s) = has_nonspace s.
Proof.
  unfold has_nonspace. induction s as [|c s IH]; simpl.
  - reflexivity.
  - destruct (is_space c); simpl; [exact IH | reflexivity].
Qed.

Lemma has_nonspace_lstrip (s : string) :
  has_nonspace (lstrip s) = has_nonspace s.
Proof.
  unfold has_nonspace. induction s as [|c s IH]; simpl.
  - reflexivity.
  - destruct (is_space c) eqn:E; simpl; [exact IH | now rewrite E].
Qed.

Lemma has_nonspace_rev_onto (s acc : string) :
  has_nonspace (rev_onto s acc) = has_nonspace s || has_nonspace acc.
Proof.
  unfold has_nonspace. revert acc. induction s as [|c s IH]; intro acc; simpl.
  - reflexivity.
  - rewrite IH. simpl.
    destruct (is_space c); simpl;
      destruct (exists_char (fun c0 => negb (is_space c0)) s); reflexivity.
Qed.

Lemma truthy_rev_onto (s acc : string) :
  truthy (rev_onto s acc) = truthy s || truthy acc.
Proof.
  revert acc. induction s as [|c s IH]; intro acc; simpl.
  - reflexivity.
  - rewrite IH. simpl. apply orb_true_r.
Qed.

(** [s.strip()] is not empty exactly when [s] has a character that is
    not white space. *)
Lemma nonblank_has_nonspace (s : string) : nonblank s = has_nonspace s.
Proof.
  unfold nonblank, strip, rev.
  rewrite truthy_rev_onto, orb_false_r, truthy_lstrip.
  rewrite has_nonspace_rev_onto.
  change (has_nonspace EmptyString) with false.
  rewrite orb_false_r. apply has_nonspace_lstrip.
Qed.

Lemma has_nonspace_app (a b : string) :
  has_nonspace (a ++ b) = has_nonspace a || has_nonspace b.
Proof.
  unfold has_nonspace. induction a as [|c a IH]; simpl.
  - reflexivity.
  - now rewrite IH, orb_assoc.
Qed.

Lemma has_nonspace_truthy (s : string) : has_nonspace s = true -> truthy s = true.
Proof. destruct s; [discriminate | reflexivity]. Qed.

Lemma search_metadata_nonspace (s : string) :
  search_metadata s = true -> has_nonspace s = true.
Proof.
  unfold has_nonspace. induction s as [|c s IH]; simpl; [discriminate|].
  intro H. apply orb_true_iff in H as [H|H].
  - apply andb_true_iff in H as [Hc _].
    now rewrite (colon_not_space _ Hc).
  - rewrite (IH H). apply orb_true_r.
Qed.

Lemma prefix_app_same (a b c : string) : prefix (a ++ b) (a ++ c) = prefix b c.
Proof.
  induction a as [|x a IH]; simpl.
  - reflexivity.
  - destruct (ascii_dec x x); [exact IH | congruence].
Qed.

Lemma prefix_app_l (a b s : string) :
  prefix (a ++ b) s = true -> prefix a s = true.
Proof.
  revert s. induction a as [|x a IH]; intro s; simpl.
  - destruct s; reflexivity.
  - destruct s as [|y s]; simpl; [discriminate|].
    destruct (ascii_dec x y); [apply IH | discriminate].
Qed.
End PyStrFacts.

(** ** Metadata rows *)

Lemma header_step_flag_kept (l : list string) (acc : nat * bool) :
  snd acc = true -> snd (fold_left header_step l acc) = true.
Proof.
  revert acc. induction l as [|t l IH]; intros acc H; simpl.
  - exact H.
  - apply IH. unfold header_step.
    destruct (PyStr.truthy t && PyStr.nonblank t); [|exact H].
    simpl. now rewrite H.
Qed.

Lemma header_step_flag_set (l : list string) (t : string) (acc : nat * bool) :
  In t l ->
  PyStr.truthy t = true -> PyStr.nonblank t = true ->
  PyStr.search_metadata t = true ->
  snd (fold_left header_step l acc) = true.
Proof.
  revert acc. induction l as [|u l IH]; intros acc Hin Ht Hb Hm; simpl.
  - destruct Hin.
  - destruct Hin as [->|Hin].
    + apply header_step_flag_kept. unfold header_step.
      rewrite Ht, Hb. simpl. rewrite Hm. apply orb_true_r.
    + now apply IH.
Qed.

Lemma row_text_content_In (row_cells : row) (c : cell) (t : string) :
  In c row_cells -> snd c = Some t -> PyStr.truthy t = true ->
  In (PyStr.lower t) (row_text_content row_cells).
Proof.
  intros Hin Ht Htr. unfold row_text_content.
  apply in_flat_map. exists c. split; [exact Hin|].
  rewrite Ht, Htr. now left.
Qed.

Lemma metadata_cell_flags_row (row_cells : row) (c : cell) (t : string) :
  In c row_cells -> snd c = Some t -> PyStr.search_metadata t = true ->
  row_contains_metadata_pattern row_cells = true.
Proof.
  intros Hin Ht Hm.
  assert (Hns : PyStr.has_nonspace t = true)
    by now apply PyStrFacts.search_metadata_nonspace.
  assert (Htr : PyStr.truthy t = true)
    by now apply PyStrFacts.has_nonspace_truthy.
  unfold row_contains_metadata_pattern, header_stats.
  apply (header_step_flag_set _ (PyStr.lower t)).
  - now apply (row_text_content_In row_cells c).
  - now rewrite PyStrFacts.truthy_lower.
  - rewrite PyStrFacts.nonblank_has_nonspace.
    apply PyStrFacts.search_metadata_nonspace.
    now rewrite PyStrFacts.search_metadata_lower.
  - now rewrite PyStrFacts.search_metadata_lower.
Qed.

Lemma header_step_flag_inv (l : list string) (acc : nat * bool) :
  snd (fold_left header_step l acc) = true ->
  snd acc = true \/ exists t, In t l /\ PyStr.search_metadata t = true.
Proof.
  revert acc. induction l as [|u l IH]; intros acc H; simpl in H.
  - now left.
  - destruct (IH _ H) as [Hacc | [t [Hin Ht]]].
    + unfold header_step in Hacc.
      destruct (PyStr.truthy u && PyStr.nonblank u); [|now left].
      simpl in Hacc. apply orb_true_iff in Hacc as [Hacc|Hacc]; [now left|].
      right. exists u. split; [now left | exact Hacc].
    + right. exists t. split; [now right | exact Ht].
Qed.

Lemma row_text_content_inv (row_cells : row) (u : string) :
  In u (row_text_content row_cells) ->
  exists c t, In c row_cells /\ snd c = Some t /\ u = PyStr.lower t.
Proof.
  unfold row_text_content. intro H.
  apply in_flat_map in H as [c [Hc Hu]].
  destruct (snd c) as [t|] eqn:Et; [|destruct Hu].
  destruct (PyStr.truthy t); [|destruct Hu].
  destruct Hu as [<-|[]]. now exists c, t.
Qed.

(** The flag of the loop is set exactly when some cell text has the
    metadata pattern. *)
Lemma metadata_flag_iff (row_cells : row) :
  row_contains_metadata_pattern row_cells = true
  <-> exists c t, In c row_cells /\ snd c = Some t
                  /\ PyStr.search_metadata t = true.
Proof.
  split.
  - unfold row_contains_metadata_pattern, header_stats. intro H.
    destruct (header_step_flag_inv _ _ H) as [Hacc | [u [Hin Hu]]];
      [discriminate|].
    destruct (row_text_content_inv _ _ Hin) as [c [t [Hc [Ht ->]]]].
    exists c, t. rewrite PyStrFacts.search_metadata_lower in Hu.
    now repeat split.
  - intros [c [t [Hc [Ht Hm]]]].
    exact (metadata_cell_flags_row _ _ _ Hc Ht Hm).
Qed.

Lemma row_is_header_qualifies (row_cells : row) :
  row_is_header row_cells = true <-> qualifies row_cells.
Proof.
  unfold row_is_header, qualifies.
  rewrite andb_true_iff, Nat.leb_le, negb_true_iff. split.
  - intros [Hc Hm]. split; [exact Hc|]. intros c t Hin Ht.
    destruct (PyStr.search_metadata t) eqn:E; [|reflexivity].
    assert (Hflag : row_contains_metadata_pattern row_cells = true)
      by (apply metadata_flag_iff; now exists c, t).
    congruence.
  - intros [Hc Hno]. split; [exact Hc|].
    destruct (row_contains_metadata_pattern row_cells) eqn:E; [|reflexivity].
    apply metadata_flag_iff in E as [c [t [Hin [Ht Hm]]]].
    rewrite (Hno c t Hin Ht) in Hm. discriminate.
Qed.

(** C1. When the scan of a table completes, the header row index it
    reports is [-1] if no row qualifies (at least three keyword matches
    and no cell text with the metadata pattern), and otherwise the index
    of the last qualifying row: no row after it qualifies, so with two or
    more qualifying rows the later one wins. *)
Theorem header_last_wins (page_words : list word) (lv : locals)
    (table_rows out : table) (st : scan_state) :
  scan_table page_words lv table_rows = (out, Ok st) ->
  (Forall (fun r => ~ qualifies r) table_rows
   /\ header_found_in_table st = false
   /\ header_row_index st = (-1)%Z)
  \/ (exists k r,
        nth_error table_rows k = Some r
        /\ qualifies r
        /\ header_found_in_table st = true
        /\ header_row_index st = Z.of_nat k
        /\ forall j r', (k < j)%nat -> nth_error table_rows j = Some r' ->
                        ~ qualifies r').
Proof.
  intro H.
  destruct (scan_table_header _ _ _ _ _ H)
    as [[Hall Hd] | [k [r [Hk [Hr [Hd Hafter]]]]]];
    injection Hd as Hf Hi.
  - left. split; [|split; assumption].
    eapply Forall_impl; [|exact Hall].
    intros r Hr Hq. apply row_is_header_qualifies in Hq. congruence.
  - right. exists k, r.
    split; [exact Hk|]. split; [now apply row_is_header_qualifies|].
    split; [exact Hf|]. split; [exact Hi|].
    intros j r' Hj Hn Hq. apply row_is_header_qualifies in Hq.
    rewrite (Hafter j r' Hj Hn) in Hq. discriminate.
Qed.

Lemma header_last_wins_witness :
  exists k r,
    nth_error [ex_header; ex_plain; ex_header_later] k = Some r
    /\ qualifies r
    /\ header_row_index (ScanState true 2 unbound) = Z.of_nat k.
Proof.
  destruct (header_last_wins [] unbound
              [ex_header; ex_plain; ex_header_later]
              [ex_header; ex_plain; ex_header_later]
              (ScanState true 2 unbound) eq_refl)
    as [[_ [Hf _]] | [k [r [Hk [Hq [_ [Hi _]]]]]]].
  - discriminate Hf.
  - exists k, r. repeat split; try assumption; apply Hq.
Defined.

(** C2. A row with a cell whose text matches the metadata pattern (a
    colon, optional white space, a character that is not white space) is
    not a header row, whatever its keyword count; and when the scan of a
    table completes, the header row index it reports is not the index of
    such a row. *)
Theorem metadata_row_never_header (row_cells : row) (c : cell) (t : string) :
  In c row_cells -> snd c = Some t -> PyStr.search_metadata t = true ->
  row_is_header row_cells = false
  /\ forall (page_words : list word) (lv : locals) (table_rows out : table)
            (st : scan_state) (i : nat),
       nth_error table_rows i = Some row_cells ->
       scan_table page_words lv table_rows = (out, Ok st) ->
       header_row_index st <> Z.of_nat i.
Proof.
  intros Hin Ht Hm.
  assert (Hrow : row_is_header row_cells = false).
  { unfold row_is_header.
    rewrite (metadata_cell_flags_row _ _ _ Hin Ht Hm). apply andb_false_r. }
  split; [exact Hrow|].
  intros page_words lv table_rows out st i Hi Hscan Heq.
  destruct (scan_table_header _ _ _ _ _ Hscan)
    as [[_ Hd] | [k [r [Hk [Hr [Hd _]]]]]];
    injection Hd as Hf Hidx.
  - lia.
  - assert (k = i) by lia. subst k.
    rewrite Hi in Hk. injection Hk as <-. congruence.
Qed.

Lemma metadata_row_never_header_witness :
  row_is_header ex_metadata = false
  /\ (3 <= matched_keyword_count ex_metadata)%nat
  /\ header_row_index (ScanState true 0 unbound) <> 1%Z.
Proof.
  destruct (metadata_row_never_header ex_metadata
              (Some (BBox 0 60 50 70), Some "Invoice: 12345"%string)
              "Invoice: 12345"%string
              (or_introl eq_refl) eq_refl eq_refl) as [Hrow Hidx].
  split; [exact Hrow|]. split; [vm_compute; lia|].
  exact (Hidx [] unbound [ex_header; ex_metadata] [ex_header; ex_metadata]
           (ScanState true 0 unbound) 1%nat eq_refl eq_refl).
Defined.

(** ** The corruption marker *)

Lemma mark_cell_kept_or_marked (pw : list word) (lv lv' : locals) (c c' : cell) :
  mark_cell pw lv c = Ok (lv', c') -> cell_kept_or_marked c c'.
Proof.
  unfold mark_cell.
  destruct (horizontal_gap_check pw lv c) as [lv1 b].
  destruct (sum_of_gaps_check lv1) as [s|e]; [|discriminate].
  destruct ((should_mark_based_on_content_and_newlines (snd c) || b || s)
            && text_truthy (snd c) && text_nonblank (snd c)) eqn:E;
    intro H; injection H as _ <-.
  - right. apply andb_true_iff in E as [E _].
    apply andb_true_iff in E as [_ E].
    destruct c as [bb [t|]]; [|discriminate].
    exists t. split; reflexivity.
  - now left.
Qed.

Lemma Forall2_same {A} (R : A -> A -> Prop) (l : list A) :
  (forall x, R x x) -> Forall2 R l l.
Proof. intro H. induction l; constructor; auto. Qed.

Lemma mark_cells_kept_or_marked (pw : list word) (cells : row) :
  forall (lv : locals) (out : row) (r : result locals),
    mark_cells pw lv cells = (out, r) ->
    Forall2 cell_kept_or_marked cells out.
Proof.
  induction cells as [|c cells IH]; intros lv out r; simpl.
  - intro H; injection H as <- _. constructor.
  - destruct (mark_cell pw lv c) as [[lv' c']|e] eqn:Ec.
    + destruct (mark_cells pw lv' cells) as [o r'] eqn:Er.
      intro H; injection H as <- _.
      constructor; [exact (mark_cell_kept_or_marked _ _ _ _ _ Ec)|].
      exact (IH _ _ _ Er).
    + intro H; injection H as <- _.
      apply Forall2_same. intro x. now left.
Qed.

(** A row is rewritten only in the marking branch of the row loop. *)
Lemma scan_row_marking (pw : list word) (st : scan_state) (idx : Z) (r : row)
    (out : row) (res : result scan_state) :
  scan_row pw st idx r = (out, res) ->
  out = r
  \/ (Forall2 cell_kept_or_marked r out
      /\ (1 < none_count_in_row r)%nat
      /\ fst (detect_step (header_fields st) idx r) = true
      /\ (snd (detect_step (header_fields st) idx r) < idx)%Z).
Proof.
  unfold scan_row. rewrite <- header_fields_detect.
  destruct (header_found_in_table (detect_header st idx r)
            && (header_row_index (detect_header st idx r) <? idx)%Z
            && (1 <? none_count_in_row r)%nat) eqn:E.
  - destruct (mark_cells pw (scan_locals (detect_header st idx r)) r)
      as [o res'] eqn:Em.
    intro H; injection H as <- _. right.
    apply andb_true_iff in E as [E Hn].
    apply andb_true_iff in E as [Hf Hi].
    split; [exact (mark_cells_kept_or_marked _ _ _ _ _ Em)|].
    split; [now apply Nat.ltb_lt|].
    split; [exact Hf | now apply Z.ltb_lt].
  - intro H; injection H as <- _. now left.
Qed.

(** Every row the scan leaves changed had more than one cell without a
    box and was scanned while a header found in an earlier row was
    current. *)
Lemma scan_rows_marking (pw : list word) (rows : table) :
  forall (st : scan_state) (idx : Z) (out : table) (res : result scan_state),
    scan_rows pw st idx rows = (out, res) ->
    List.length out = List.length rows
    /\ forall (k : nat) (row_in row_out : row),
         nth_error rows k = Some row_in ->
         nth_error out k = Some row_out ->
         row_out = row_in
         \/ (Forall2 cell_kept_or_marked row_in row_out
             /\ (1 < none_count_in_row row_in)%nat
             /\ fst (detect_rows (header_fields st) idx (firstn (S k) rows)) = true
             /\ (snd (detect_rows (header_fields st) idx (firstn (S k) rows))
                 < idx + Z.of_nat k)%Z).
Proof.
  induction rows as [|r rows IH]; intros st idx out res; simpl.
  - intro H; injection H as <- _. split; [reflexivity|].
    intros k ? ? Hk. destruct k; discriminate.
  - destruct (scan_row pw st idx r) as [o [st1|e]] eqn:Er.
    + destruct (scan_rows pw st1 (idx + 1)%Z rows) as [outs res'] eqn:Erest.
      intro H; injection H as <- _.
      destruct (IH _ _ _ _ Erest) as [Hlen Hrows].
      split; [simpl; now rewrite Hlen|].
      intros k row_in row_out Hin Hout. destruct k as [|k]; simpl in Hin, Hout.
      * injection Hin as <-. injection Hout as <-.
        destruct (scan_row_marking _ _ _ _ _ _ Er) as [->|[HF [Hn [Hf Hi]]]];
          [now left|].
        right. rewrite firstn_O. simpl.
        split; [exact HF|]. split; [exact Hn|]. split; [exact Hf | lia].
      * destruct (Hrows k row_in row_out Hin Hout) as [->|[HF [Hn [Hf Hi]]]];
          [now left|].
        right. rewrite (scan_row_header _ _ _ _ _ _ Er) in Hf, Hi.
        split; [exact HF|]. split; [exact Hn|]. split; [exact Hf | lia].
    + intro H; injection H as <- _. split; [reflexivity|].
      intros k row_in row_out Hin Hout. destruct k as [|k]; simpl in Hin, Hout.
      * injection Hin as <-. injection Hout as <-.
        destruct (scan_row_marking _ _ _ _ _ _ Er) as [->|[HF [Hn [Hf Hi]]]];
          [now left|].
        right. rewrite firstn_O. simpl.
        split; [exact HF|]. split; [exact Hn|]. split; [exact Hf | lia].
      * left. congruence.
Qed.

Lemma scan_table_marking (pw : list word) (lv : locals) (table_rows out : table)
    (res : result scan_state) :
  scan_table pw lv table_rows = (out, res) ->
  List.length out = List.length table_rows
  /\ forall (k : nat) (row_in row_out : row),
       nth_error table_rows k = Some row_in ->
       nth_error out k = Some row_out ->
       row_out = row_in
       \/ (Forall2 cell_kept_or_marked row_in row_out
           /\ (1 < none_count_in_row row_in)%nat
           /\ exists h hrow,
                (h < k)%nat
                /\ nth_error table_rows h = Some hrow
                /\ row_is_header hrow = true
                /\ forall j jrow, (h < j <= k)%nat ->
                                  nth_error table_rows j = Some jrow ->
                                  row_is_header jrow = false).
Proof.
  unfold scan_table. intro H.
  destruct (scan_rows_marking _ _ _ _ _ _ H) as [Hlen Hrows].
  split; [exact Hlen|].
  intros k row_in row_out Hin Hout.
  destruct (Hrows k row_in row_out Hin Hout) as [->|[HF [Hn [Hf Hi]]]];
    [now left|].
  right. split; [exact HF|]. split; [exact Hn|].
  change (header_fields (scan_start lv)) with (false, (-1)%Z) in Hf, Hi.
  destruct (detect_rows_spec (firstn (S k) table_rows) (false, (-1)%Z) 0%Z)
    as [[_ Hd] | [h [hrow [Hh [Hhdr [Hd Hafter]]]]]];
    rewrite Hd in Hf, Hi; cbn [fst snd] in Hf, Hi; [discriminate|].
  exists h, hrow.
  assert (Hhk : (h < k)%nat) by lia.
  rewrite nth_error_firstn in Hh.
  destruct (Nat.ltb_spec h (S k)) as [_|Hge]; [|lia].
  split; [exact Hhk|]. split; [exact Hh|]. split; [exact Hhdr|].
  intros j jrow [Hj1 Hj2] Hjn.
  apply (Hafter j jrow Hj1).
  rewrite nth_error_firstn.
  destruct (Nat.ltb_spec j (S k)) as [_|Hge]; [exact Hjn | lia].
Qed.

(** C7. Whatever the outcome of the scan, a row of the table is left
    unchanged unless it has more than one cell without a box and some
    earlier row is a header with no header row between that row and the
    scanned row, itself included (the header index current at the row is
    smaller than the row index); in such a row a cell is either kept or
    gets its text prefixed with the marker.  So no cell is marked before
    a header is found, in a header row, or in a row with at most one
    missing box. *)
Theorem marking_only_below_header (page_words : list word) (lv : locals)
    (table_rows : table) :
  List.length (fst (scan_table page_words lv table_rows))
  = List.length table_rows
  /\ forall (k : nat) (row_in row_out : row),
       nth_error table_rows k = Some row_in ->
       nth_error (fst (scan_table page_words lv table_rows)) k = Some row_out ->
       row_out = row_in
       \/ (Forall2 cell_kept_or_marked row_in row_out
           /\ (1 < none_count_in_row row_in)%nat
           /\ exists h hrow,
                (h < k)%nat
                /\ nth_error table_rows h = Some hrow
                /\ row_is_header hrow = true
                /\ forall j jrow, (h < j <= k)%nat ->
                                  nth_error table_rows j = Some jrow ->
                                  row_is_header jrow = false).
Proof.
  destruct (scan_table page_words lv table_rows) as [out res] eqn:E.
  exact (scan_table_marking _ _ _ _ _ E).
Qed.

Lemma marking_only_below_header_witness :
  ex_merged_marked = ex_merged
  \/ (Forall2 cell_kept_or_marked ex_merged ex_merged_marked
      /\ (1 < none_count_in_row ex_merged)%nat
      /\ exists h hrow,
           (h < 1)%nat
           /\ nth_error [ex_header; ex_merged] h = Some hrow
           /\ row_is_header hrow = true
           /\ forall j jrow, (h < j <= 1)%nat ->
                             nth_error [ex_header; ex_merged] j = Some jrow ->
                             row_is_header jrow = false).
Proof.
  exact (proj2 (marking_only_below_header ex_words unbound [ex_header; ex_merged])
           1%nat ex_merged ex_merged_marked eq_refl eq_refl).
Defined.

(** Where the exception can come from: a cell with text and a box
    assigns the locals, and once they are assigned no later cell
    raises. *)
Lemma horizontal_gap_check_bound (pw : list word) (lv : locals) (c : cell) :
  locals_bound lv \/ (text_truthy (snd c) = true /\ fst c <> None) ->
  locals_bound (fst (horizontal_gap_check pw lv c)).
Proof.
  intro H. unfold horizontal_gap_check.
  destruct c as [[bb|] [t|]]; cbn [fst snd text_truthy] in *;
    try (destruct H as [H|[H1 H2]]; [exact H | congruence]).
  destruct (PyStr.truthy t) eqn:Et.
  - destruct (1 <? List.length (filter (word_in_cell bb) pw))%nat eqn:El;
      unfold locals_bound; cbn [fst current_cell_words avg_word_width].
    + intros _. discriminate.
    + intro Hlen. apply Nat.ltb_ge in El. lia.
  - destruct H as [H|[H1 H2]]; [exact H | discriminate].
Qed.

Lemma sum_of_gaps_check_bound (lv : locals) :
  locals_bound lv -> exists s, sum_of_gaps_check lv = Ok s.
Proof.
  unfold locals_bound, sum_of_gaps_check.
  destruct (current_cell_words lv) as [ws|]; [|contradiction].
  intro H. destruct (1 <? List.length ws)%nat eqn:El; [|now eexists].
  apply Nat.ltb_lt in El. specialize (H El).
  destruct (avg_word_width lv) as [a|]; [now eexists | congruence].
Qed.

Lemma mark_cell_bound (pw : list word) (lv : locals) (c : cell) :
  locals_bound lv \/ (text_truthy (snd c) = true /\ fst c <> None) ->
  exists lv' c', mark_cell pw lv c = Ok (lv', c') /\ locals_bound lv'.
Proof.
  intro H. apply (horizontal_gap_check_bound pw) in H.
  unfold mark_cell.
  destruct (horizontal_gap_check pw lv c) as [lv1 b]. cbn [fst] in H.
  destruct (sum_of_gaps_check_bound lv1 H) as [s ->].
  destruct ((should_mark_based_on_content_and_newlines (snd c) || b || s)
            && text_truthy (snd c) && text_nonblank (snd c));
    eexists; eexists; split; try reflexivity; exact H.
Qed.

Lemma mark_cells_bound (pw : list word) (cells : row) :
  forall lv, locals_bound lv ->
             exists lv', snd (mark_cells pw lv cells) = Ok lv'
                         /\ locals_bound lv'.
Proof.
  induction cells as [|c cells IH]; intros lv H; simpl.
  - now exists lv.
  - destruct (mark_cell_bound pw lv c (or_introl H)) as [lv1 [c' [-> H1]]].
    destruct (IH lv1 H1) as [lv' [E H']].
    destruct (mark_cells pw lv1 cells) as [o r]. simpl in *.
    now exists lv'.
Qed.

Lemma scan_rows_bound (pw : list word) (rows : table) :
  forall st idx, locals_bound (scan_locals st) ->
                 exists st', snd (scan_rows pw st idx rows) = Ok st'
                             /\ locals_bound (scan_locals st').
Proof.
  induction rows as [|r rows IH]; intros st idx H; simpl.
  - now exists st.
  - assert (Hrow : exists o st1, scan_row pw st idx r = (o, Ok st1)
                                 /\ locals_bound (scan_locals st1)).
    { unfold scan_row.
      assert (Hd : locals_bound (scan_locals (detect_header st idx r)))
        by (unfold detect_header; destruct (row_is_header r); exact H).
      destruct (header_found_in_table (detect_header st idx r)
                && (header_row_index (detect_header st idx r) <? idx)%Z
                && (1 <? none_count_in_row r)%nat).
      - destruct (mark_cells_bound pw r _ Hd) as [lv' [E H']].
        destruct (mark_cells pw (scan_locals (detect_header st idx r)) r)
          as [o res]. simpl in E. subst res.
        eexists; eexists; split; [reflexivity | exact H'].
      - eexists; eexists; split; [reflexivity | exact Hd]. }
    destruct Hrow as [o [st1 [-> H1]]].
    destruct (IH st1 (idx + 1)%Z H1) as [st' [E H']].
    destruct (scan_rows pw st1 (idx + 1)%Z rows) as [outs res]. simpl in *.
    now exists st'.
Qed.

Lemma Forall2_nth_error {A B} (R : A -> B -> Prop) (l : list A) (l' : list B) :
  Forall2 R l l' ->
  forall i a b, nth_error l i = Some a -> nth_error l' i = Some b -> R a b.
Proof.
  induction 1 as [|x y l l' Hxy HF IH]; intros i a b Ha Hb.
  - destruct i; discriminate.
  - destruct i as [|i]; simpl in Ha, Hb.
    + injection Ha as <-. injection Hb as <-. exact Hxy.
    + exact (IH i a b Ha Hb).
Qed.

Lemma no_double_prefix_kept (s : string) :
  prefix PyStr.MARK s = false -> prefix (PyStr.MARK ++ PyStr.MARK) s = false.
Proof.
  intro H. destruct (prefix (PyStr.MARK ++ PyStr.MARK) s) eqn:E; [|reflexivity].
  apply PyStrFacts.prefix_app_l in E. congruence.
Qed.

(** C8, as amended.  One scan of a table examines each cell once and a
    marked cell gets the prefix in front of the text it had: a cell whose
    text did not begin with the marker before the scan does not begin
    with the doubled marker after it. *)
Theorem single_scan_prefixes_once (page_words : list word) (lv : locals)
    (table_rows : table) (k i : nat) (row_in row_out : row) (c c' : cell) :
  nth_error table_rows k = Some row_in ->
  nth_error (fst (scan_table page_words lv table_rows)) k = Some row_out ->
  nth_error row_in i = Some c ->
  nth_error row_out i = Some c' ->
  cell_kept_or_marked c c'
  /\ ((forall s, snd c = Some s -> prefix PyStr.MARK s = false) ->
      forall s', snd c' = Some s' ->
                 prefix (PyStr.MARK ++ PyStr.MARK) s' = false).
Proof.
  intros Hin Hout Hc Hc'.
  destruct (scan_table page_words lv table_rows) as [out res] eqn:E.
  simpl in Hout.
  destruct (scan_table_marking _ _ _ _ _ E) as [_ Hrows].
  assert (Hrel : cell_kept_or_marked c c').
  { destruct (Hrows k row_in row_out Hin Hout) as [->|[HF _]].
    - left. congruence.
    - exact (Forall2_nth_error _ _ _ HF i c c' Hc Hc'). }
  split; [exact Hrel|].
  intros Hfresh s' Hs'.
  destruct Hrel as [->|[text [Ht ->]]].
  - apply no_double_prefix_kept. now apply Hfresh.
  - assert (Hs : s' = (PyStr.MARK ++ text)%string)
      by (cbn [snd] in Hs'; inversion Hs'; reflexivity).
    rewrite Hs, PyStrFacts.prefix_app_same. now apply Hfresh.
Qed.

Lemma single_scan_prefixes_once_witness :
  cell_kept_or_marked
    (Some (BBox 0 10 100 20), Some "x y"%string)
    (Some (BBox 0 10 100 20), Some "#$ x y"%string)
  /\ prefix (PyStr.MARK ++ PyStr.MARK) "#$ x y" = false.
Proof.
  destruct (single_scan_prefixes_once ex_words unbound [ex_header; ex_merged]
              1 0 ex_merged ex_merged_marked
              (Some (BBox 0 10 100 20), Some "x y"%string)
              (Some (BBox 0 10 100 20), Some "#$ x y"%string)
              eq_refl eq_refl eq_refl eq_refl) as [Hrel Hfresh].
  split; [exact Hrel|].
  apply Hfresh; [|reflexivity].
  intros s Hs. injection Hs as <-. reflexivity.
Defined.

(** C8 as stated fails: the marker does not look for an existing
    prefix, so a second scan of the table marked by a first scan
    prefixes the marked cells again. *)
Lemma remarking_doubles_prefix :
  fst (scan_table ex_words unbound [ex_header; ex_merged])
  = [ex_header; ex_merged_marked]
  /\ fst (scan_table ex_words unbound [ex_header; ex_merged_marked])
     = [ex_header; ex_merged_marked_twice]
  /\ nth_error ex_merged_marked_twice 0
     = Some (Some (BBox 0 10 100 20), Some "#$ #$ x y"%string).
Proof.
  repeat split; vm_compute; reflexivity.
Qed.

(** C3.  The claim is that condition (c) is skipped for a cell whose
    word collection was skipped.  The code evaluates it all the same, on
    the words left by the last cell that had both text and a box.  The
    cell ["z"] without a box fails (a) and gets no words of its own in
    (b), yet (c) holds for it, from the two words of the cell before it,
    and it is marked; with an empty word list in the locals it is left
    alone.  For a cell with a box and empty text the word collection is
    skipped as well and (c) is evaluated on the same two words. *)
Theorem sum_of_gaps_reads_previous_cell :
  let c : cell := (None, Some "z"%string) in
  let blank : cell := (Some (BBox 100 10 150 20), Some ""%string) in
  let left_by_previous := Locals (Some ex_words) (Some (10 # 2)) in
  should_mark_based_on_content_and_newlines (snd c) = false
  /\ horizontal_gap_check ex_words left_by_previous c = (left_by_previous, false)
  /\ horizontal_gap_check ex_words left_by_previous blank
     = (left_by_previous, false)
  /\ sum_of_gaps_check left_by_previous = Ok true
  /\ mark_cell ex_words left_by_previous c
     = Ok (left_by_previous, (None, Some "#$ z"%string))
  /\ mark_cell ex_words (Locals (Some []) None) c
     = Ok (Locals (Some []) None, c)
  /\ scan_table ex_words unbound [ex_header; ex_merged]
     = ([ex_header; ex_merged_marked],
        Ok (ScanState true 0 left_by_previous)).
Proof.
  repeat split; vm_compute; reflexivity.
Qed.

(** C4.  The claim is that marking and assembly never raise.  With a
    header row followed by a row of two positions that have neither box
    nor text, the first cell examined skips the word collection and
    condition (c) reads [current_cell_words] before any assignment: the
    scan, and with it the whole function, stops on
    [UnboundLocalError]. *)
Theorem marking_raises_on_unassigned_words :
  mark_cell [] unbound (None, None)
  = Raise (UnboundLocalError "current_cell_words")
  /\ scan_table [] unbound [ex_header; ex_null]
     = ([ex_header; ex_null], Raise (UnboundLocalError "current_cell_words"))
  /\ snd (print_formatted_output
            [("page_1"%string, PageData [[ex_header; ex_null]] [])])
     = Raise (UnboundLocalError "current_cell_words").
Proof.
  repeat split; vm_compute; reflexivity.
Qed.

(** ** The table assembler: rows without marked cells *)

Lemma best_overlap_from_range (cols : list boundary) :
  forall (i : Z) (x0 x1 m : Q) (b : Z),
    best_overlap_from i x0 x1 m b cols = b
    \/ (i <= best_overlap_from i x0 x1 m b cols
        < i + Z.of_nat (List.length cols))%Z.
Proof.
  induction cols as [|[c0 c1] cols IH]; intros i x0 x1 m b.
  - now left.
  - cbn [best_overlap_from List.length]. cbv zeta.
    match goal with |- context [if ?t then _ else _] => destruct t end.
    + right.
      destruct (IH (i + 1)%Z x0 x1 (py_min x1 c1 - py_max x0 c0) i)
        as [->|H]; lia.
    + destruct (IH (i + 1)%Z x0 x1 m b) as [->|H]; [now left | right; lia].
Qed.

Lemma closest_from_range (cols : list boundary) :
  forall (i : Z) (center : Q) (best : option Q) (b : Z),
    closest_from i center best b cols = b
    \/ (i <= closest_from i center best b cols
        < i + Z.of_nat (List.length cols))%Z.
Proof.
  induction cols as [|col cols IH]; intros i center best b.
  - now left.
  - cbn [closest_from List.length]. cbv zeta.
    match goal with |- context [if ?t then _ else _] => destruct t end.
    + right.
      destruct (IH (i + 1)%Z center
                  (Some (Qabs (center - col_center col))) i) as [->|H]; lia.
    + destruct (IH (i + 1)%Z center best b) as [->|H]; [now left | right; lia].
Qed.

Lemma assigned_col_range (cols : list boundary) (bb : bbox) :
  assigned_col cols bb = (-1)%Z
  \/ (0 <= assigned_col cols bb < Z.of_nat (List.length cols))%Z.
Proof.
  unfold assigned_col, closest_column.
  destruct (best_overlap_from_range cols 0 (b_x0 bb) (b_x1 bb) 0 (-1)) as [->|H].
  - simpl.
    destruct (closest_from_range cols 0
                (word_center (b_x0 bb) (b_x1 bb)) None (-1)) as [->|H];
      [now left | right; lia].
  - destruct (best_overlap_from 0 (b_x0 bb) (b_x1 bb) 0 (-1) cols =? -1)%Z eqn:E.
    + apply Z.eqb_eq in E. lia.
    + right. simpl. lia.
Qed.

Lemma update_at_length {A} (f : A -> A) (l : list A) :
  forall i, List.length (update_at i f l) = List.length l.
Proof.
  induction l as [|x l IH]; intros [|i]; simpl; try reflexivity.
  now rewrite IH.
Qed.

Lemma add_text_nonblank_new (t old : string) :
  PyStr.nonblank t = true -> PyStr.nonblank (add_text t old) = true.
Proof.
  unfold add_text. intro H. destruct (PyStr.truthy old); [|exact H].
  rewrite PyStrFacts.nonblank_has_nonspace in *.
  rewrite !PyStrFacts.has_nonspace_app, H. now rewrite !orb_true_r.
Qed.

Lemma add_text_nonblank_old (t old : string) :
  PyStr.nonblank old = true -> PyStr.nonblank (add_text t old) = true.
Proof.
  unfold add_text. intro H.
  rewrite PyStrFacts.nonblank_has_nonspace in H.
  rewrite (PyStrFacts.has_nonspace_truthy _ H).
  rewrite PyStrFacts.nonblank_has_nonspace, PyStrFacts.has_nonspace_app, H.
  reflexivity.
Qed.

Lemma update_at_keeps_nonblank (t : string) (m : list string) :
  forall i, any_nonblank m = true ->
            any_nonblank (update_at i (add_text t) m) = true.
Proof.
  unfold any_nonblank.
  induction m as [|s m IH]; intros [|i] H; simpl in *; try exact H.
  - apply orb_true_iff in H as [H|H].
    + now rewrite add_text_nonblank_old.
    + rewrite H. apply orb_true_r.
  - apply orb_true_iff in H as [H|H].
    + now rewrite H.
    + rewrite (IH i H). apply orb_true_r.
Qed.

Lemma update_at_makes_nonblank (t : string) (m : list string) :
  forall i, (i < List.length m)%nat -> PyStr.nonblank t = true ->
            any_nonblank (update_at i (add_text t) m) = true.
Proof.
  unfold any_nonblank.
  induction m as [|s m IH]; intros [|i] Hi Ht; simpl in *; try lia.
  - now rewrite add_text_nonblank_new.
  - rewrite IH; [apply orb_true_r | lia | exact Ht].
Qed.

Lemma map_raw_cell_length (cols : list boundary) (m : list string) (c : cell) :
  List.length (map_raw_cell cols m c) = List.length m.
Proof.
  unfold map_raw_cell.
  destruct (snd c) as [t|]; [|reflexivity].
  destruct (fst c) as [bb|].
  - destruct (negb (assigned_col cols bb =? -1)%Z);
      [apply update_at_length|].
    destruct (0 <? List.length cols)%nat; [apply update_at_length | reflexivity].
  - destruct (0 <? List.length cols)%nat; [apply update_at_length | reflexivity].
Qed.

Lemma map_raw_cell_keeps_nonblank (cols : list boundary) (m : list string)
    (c : cell) :
  any_nonblank m = true -> any_nonblank (map_raw_cell cols m c) = true.
Proof.
  intro H. unfold map_raw_cell.
  destruct (snd c) as [t|]; [|exact H].
  destruct (fst c) as [bb|].
  - destruct (negb (assigned_col cols bb =? -1)%Z);
      [now apply update_at_keeps_nonblank|].
    destruct (0 <? List.length cols)%nat;
      [now apply update_at_keeps_nonblank | exact H].
  - destruct (0 <? List.length cols)%nat;
      [now apply update_at_keeps_nonblank | exact H].
Qed.

(** With at least one column, a cell with text puts it in some column. *)
Lemma map_raw_cell_places_text (cols : list boundary) (m : list string)
    (c : cell) (t : string) :
  cols <> [] -> List.length m = List.length cols ->
  snd c = Some t -> PyStr.nonblank t = true ->
  any_nonblank (map_raw_cell cols m c) = true.
Proof.
  intros Hcols Hlen Ht Hnb.
  assert (Hpos : (0 < List.length cols)%nat)
    by (destruct cols; [congruence | simpl; lia]).
  assert (Hltb : (0 <? List.length cols)%nat = true) by now apply Nat.ltb_lt.
  unfold map_raw_cell. rewrite Ht, Hltb.
  destruct (fst c) as [bb|].
  - destruct (assigned_col_range cols bb) as [E|E].
    + rewrite E. cbn [Z.eqb Pos.eqb negb].
      apply update_at_makes_nonblank; [lia | exact Hnb].
    + destruct (assigned_col cols bb =? -1)%Z eqn:E1; cbn [negb];
        apply update_at_makes_nonblank; solve [lia | exact Hnb].
  - apply update_at_makes_nonblank; [lia | exact Hnb].
Qed.

Lemma fold_map_raw_cell_length (cols : list boundary) (cells : row) :
  forall m, List.length (fold_left (map_raw_cell cols) cells m) = List.length m.
Proof.
  induction cells as [|c cells IH]; intro m; simpl.
  - reflexivity.
  - now rewrite IH, map_raw_cell_length.
Qed.

Lemma fold_map_raw_cell_keeps (cols : list boundary) (cells : row) :
  forall m, any_nonblank m = true ->
            any_nonblank (fold_left (map_raw_cell cols) cells m) = true.
Proof.
  induction cells as [|c cells IH]; intros m H; simpl.
  - exact H.
  - apply IH. now apply map_raw_cell_keeps_nonblank.
Qed.

Lemma mapped_raw_row_nonblank (cols : list boundary) (r : row) (c : cell)
    (t : string) :
  cols <> [] -> In c r -> snd c = Some t -> PyStr.nonblank t = true ->
  any_nonblank (mapped_raw_row cols r) = true.
Proof.
  intros Hcols Hin Ht Hnb. unfold mapped_raw_row.
  assert (Hgen : forall m, List.length m = List.length cols ->
                 any_nonblank (fold_left (map_raw_cell cols) r m) = true).
  { induction r as [|c' r IH]; intros m Hlen; [destruct Hin|].
    simpl. destruct Hin as [->|Hin].
    - apply fold_map_raw_cell_keeps.
      now apply (map_raw_cell_places_text cols m c t).
    - apply IH; [exact Hin|]. now rewrite map_raw_cell_length. }
  apply Hgen. apply repeat_length.
Qed.

Lemma rows_with_positions_In (cols : list boundary) (pw : list word)
    (table_rows : table) :
  forall (start : Z) (k : nat) (r : row) (e : positioned),
    nth_error table_rows k = Some r ->
    In e (row_entries cols pw (start + Z.of_nat k)%Z r) ->
    In e (rows_with_positions_from cols pw start table_rows).
Proof.
  induction table_rows as [|r0 rows IH]; intros start k r e Hk He.
  - destruct k; discriminate.
  - simpl. apply in_or_app. destruct k as [|k]; simpl in Hk.
    + injection Hk as ->. left.
      replace (start + Z.of_nat 0)%Z with start in He by lia. exact He.
    + right. apply (IH (start + 1)%Z k r e Hk).
      replace (start + 1 + Z.of_nat k)%Z with (start + Z.of_nat (S k))%Z by lia.
      exact He.
Qed.

Lemma filter_none {A} (p : A -> bool) (l : list A) :
  Forall (fun x => p x = false) l -> filter p l = [].
Proof.
  induction 1 as [|x l Hx Hl IH]; simpl; [reflexivity|].
  now rewrite Hx.
Qed.

(** No word is collected for a row that has no span or that no page
    word overlaps. *)
Lemma words_in_raw_row_none (pw : list word) (r : row) :
  (forall mn mx, row_span r = Some (mn, mx) ->
                 Forall (fun w => word_in_span mn mx w = false) pw) ->
  words_in_raw_row pw r = [].
Proof.
  intro H. unfold words_in_raw_row.
  destruct (row_span r) as [[mn mx]|]; [|reflexivity].
  apply filter_none. now apply H.
Qed.

Lemma structure_with_header_In (table_rows : table) (header_cells : row)
    (pw : list word) (e : positioned) :
  column_boundaries_of header_cells <> [] ->
  In e (rows_with_positions_from (column_boundaries_of header_cells) pw 0%Z
          table_rows) ->
  In (snd e) (structure_with_header table_rows header_cells pw).
Proof.
  unfold structure_with_header.
  destruct (column_boundaries_of header_cells) as [|col0 cols];
    [congruence|].
  intros _ He. apply in_map.
  eapply Permutation_in; [apply Permutation_sym, py_sorted_perm | exact He].
Qed.

(** C9, as amended.  In a table with a valid header row and at least one
    column, a row without marked cells that has a cell with non-blank
    text, and whose vertical span (if it has one) no page word overlaps
    within the tolerance, is kept: it appends
    exactly one entry, with the synthesized sort key [row index * 100]
    and a non-blank structured row, and that row is in the table
    returned. *)
Theorem unmarked_row_without_words_kept (table_rows : table) (header_idx : Z)
    (header_cells : row) (page_words : list word) (k : nat) (r : row)
    (c : cell) (t : string) :
  (0 <= header_idx)%Z ->
  nth_error table_rows (Z.to_nat header_idx) = Some header_cells ->
  column_boundaries_of header_cells <> [] ->
  nth_error table_rows k = Some r ->
  current_row_has_marked_cells r = false ->
  In c r -> snd c = Some t -> PyStr.nonblank t = true ->
  (forall mn mx, row_span r = Some (mn, mx) ->
                 Forall (fun w => word_in_span mn mx w = false) page_words) ->
  let cols := column_boundaries_of header_cells in
  let entry := mapped_raw_row cols r in
  any_nonblank entry = true
  /\ row_entries cols page_words (Z.of_nat k) r
     = [(inject_Z (Z.of_nat k * 100), entry)]
  /\ In (inject_Z (Z.of_nat k * 100), entry)
       (rows_with_positions_from cols page_words 0%Z table_rows)
  /\ exists out,
       create_structured_table table_rows header_idx page_words = Ok out
       /\ In entry out.
Proof.
  intros Hidx Hhdr Hcols Hk Hunmarked Hin Ht Hnb Hnone cols entry.
  assert (Hnowords : words_in_raw_row page_words r = [])
    by exact (words_in_raw_row_none page_words r Hnone).
  assert (Hentry : any_nonblank entry = true)
    by exact (mapped_raw_row_nonblank cols r c t Hcols Hin Ht Hnb).
  assert (Hrow : row_entries cols page_words (Z.of_nat k) r
                 = [(inject_Z (Z.of_nat k * 100), entry)]).
  { unfold row_entries. rewrite Hunmarked.
    unfold raw_row_entries. fold entry. rewrite Hentry.
    unfold raw_row_y_pos. rewrite Hnowords. reflexivity. }
  assert (Hall : In (inject_Z (Z.of_nat k * 100), entry)
                   (rows_with_positions_from cols page_words 0%Z table_rows)).
  { apply (rows_with_positions_In cols page_words table_rows 0%Z k r);
      [exact Hk|].
    rewrite Z.add_0_l, Hrow. now left. }
  split; [exact Hentry|]. split; [exact Hrow|]. split; [exact Hall|].
  assert (Hlt : (Z.to_nat header_idx < List.length table_rows)%nat)
    by (apply nth_error_Some; congruence).
  unfold create_structured_table.
  assert (E1 : (header_idx =? -1)%Z = false) by (apply Z.eqb_neq; lia).
  assert (E2 : (Z.of_nat (List.length table_rows) <=? header_idx)%Z = false)
    by (apply Z.leb_gt; lia).
  rewrite E1, E2. cbn [orb].
  unfold py_index.
  assert (E3 : (0 <=? header_idx)%Z = true) by now apply Z.leb_le.
  rewrite E3, Hhdr.
  eexists. split; [reflexivity|].
  exact (structure_with_header_In table_rows header_cells page_words
           (inject_Z (Z.of_nat k * 100), entry) Hcols Hall).
Qed.

Lemma unmarked_row_without_words_kept_witness :
  any_nonblank (mapped_raw_row (column_boundaries_of ex_header) ex_plain) = true
  /\ exists out,
       create_structured_table [ex_header; ex_plain] 0 ex_far_words = Ok out
       /\ In (mapped_raw_row (column_boundaries_of ex_header) ex_plain) out.
Proof.
  assert (Hcols : column_boundaries_of ex_header <> [])
    by (vm_compute; discriminate).
  assert (Hnone : forall mn mx, row_span ex_plain = Some (mn, mx) ->
            Forall (fun w => word_in_span mn mx w = false) ex_far_words).
  { intros mn mx H. vm_compute in H. injection H as <- <-.
    repeat constructor. }
  destruct (unmarked_row_without_words_kept [ex_header; ex_plain] 0 ex_header
              ex_far_words 1 ex_plain
              (Some (BBox 0 20 50 30), Some "widget"%string) "widget"%string
              (Z.le_refl 0) eq_refl Hcols eq_refl eq_refl
              (or_introl eq_refl) eq_refl eq_refl Hnone)
    as [Hentry [_ [_ Hout]]].
  split; assumption.
Defined.

(** C9 as stated fails on the marked-row path: a row with a marked,
    non-blank cell that no page word overlaps appends nothing, and the
    table returned has the header row only.  The same happens through
    the whole function when the cell is marked by condition (a). *)
Lemma marked_row_without_words_dropped :
  current_row_has_marked_cells ex_merged_marked = true
  /\ any_nonblank (mapped_raw_row (column_boundaries_of ex_header)
                     ex_merged_marked) = true
  /\ row_span ex_merged_marked = Some (10, 20)
  /\ filter (word_in_span 10 20) ex_far_words = []
  /\ row_entries (column_boundaries_of ex_header) ex_far_words 1
       ex_merged_marked = []
  /\ create_structured_table [ex_header; ex_merged_marked] 0 ex_far_words
     = Ok [["Item"%string; "Qty Rate"%string]]
  /\ print_formatted_output
       [("page_1"%string, PageData [[ex_header; ex_multiline]] ex_far_words)]
     = ([("page_1"%string,
          PageData
            [[ex_header;
              [ (Some (BBox 0 10 100 20),
                 Some (PyStr.MARK ++ ex_multiline_text)%string);
                (None, None); (None, None) ]]]
            ex_far_words)],
        Ok [[["Item"%string; "Qty Rate"%string]]]).
Proof.
  repeat split; vm_compute; reflexivity.
Qed.

(** * Further properties *)

(** ** [find_column_for_word]: the index returned *)

Lemma find_column_from_result (x0 x1 : Q) (cols : list boundary) :
  forall i : Z,
    (find_column_from i x0 x1 cols = (-1)%Z
     /\ Forall (fun col => column_accepts x0 x1 col = false) cols)
    \/ exists k col,
         find_column_from i x0 x1 cols = (i + Z.of_nat k)%Z
         /\ nth_error cols k = Some col
         /\ column_accepts x0 x1 col = true.
Proof.
  induction cols as [|c cols IH]; intro i; simpl.
  - left. split; [reflexivity | constructor].
  - destruct (column_accepts x0 x1 c) eqn:E.
    + right. exists 0%nat, c. repeat split; [lia | exact E].
    + destruct (IH (i + 1)%Z) as [[Hr Hall] | [k [col [Hr [Hk Hc]]]]].
      * left. split; [exact Hr | now constructor].
      * right. exists (S k), col. repeat split; [lia | exact Hk | exact Hc].
Qed.

(** X1. [find_column_for_word] returns either [-1], and then no column
    passes the overlap tests, or the index of a column of the list that
    passes them; it never returns an index out of range. *)
Theorem find_column_for_word_in_range (word_x0 word_x1 : Q)
    (column_boundaries : list boundary) :
  (find_column_for_word word_x0 word_x1 column_boundaries = (-1)%Z
   /\ Forall (fun col => column_accepts word_x0 word_x1 col = false)
        column_boundaries)
  \/ exists k col,
       find_column_for_word word_x0 word_x1 column_boundaries = Z.of_nat k
       /\ (k < List.length column_boundaries)%nat
       /\ nth_error column_boundaries k = Some col
       /\ column_accepts word_x0 word_x1 col = true.
Proof.
  unfold find_column_for_word.
  destruct (find_column_from_result word_x0 word_x1 column_boundaries 0%Z)
    as [H | [k [col [Hr [Hk Hc]]]]]; [now left|].
  right. exists k, col. split; [rewrite Hr; lia|].
  split; [apply nth_error_Some; congruence|]. split; assumption.
Qed.

(** ** [separate_rows_by_vertical_gap]: threshold, separation, order of the input *)








(** With integer coordinates the threshold is the value the floats
    give: for heights of mean [30 / 7] it is just below 3, and a word
    that starts 3 below the row opens a new row. *)
Lemma gap_threshold_rounds_as_floats :
  gap_threshold (py_sorted key_y0_x0_leb ex_seven_words)
  == 6755399441055743 # 2251799813685248
  /\ gap_threshold (py_sorted key_y0_x0_leb ex_seven_words) < 3
  /\ List.length (separate_rows_by_vertical_gap ex_seven_words) = 2%nat.
Proof.
  split; [|split]; vm_compute; reflexivity.
Qed.








(** X3. The rows do not depend on the order in which the words are
    given, provided no two different words share both top and [x0]. *)
Theorem separate_rows_input_order (cell_words cell_words' : list word) :
  Permutation cell_words' cell_words ->
  (forall a b, In a cell_words -> In b cell_words ->
               w_y0 a == w_y0 b -> w_x0 a == w_x0 b -> a = b) ->
  separate_rows_by_vertical_gap cell_words'
  = separate_rows_by_vertical_gap cell_words.
Proof.
  intros Hp Hdistinct.
  apply separate_rows_sorted_eq.
  apply py_sorted_perm_eq;
    [apply key_y0_x0_leb_total | apply key_y0_x0_leb_trans | | exact Hp].
  intros a b Ha Hb Hab Hba.
  apply key_y0_x0_leb_spec in Hab, Hba.
  apply Hdistinct; try assumption.
  - destruct Hab as [?|[? _]]; destruct Hba as [?|[? _]]; lra.
  - destruct Hab as [?|[? ?]]; destruct Hba as [?|[? ?]]; lra.
Qed.

Lemma separate_rows_input_order_witness :
  separate_rows_by_vertical_gap
    [ Word "b" 6 1 9 11; Word "a" 0 0 5 10 ]
  = separate_rows_by_vertical_gap
      [ Word "a" 0 0 5 10; Word "b" 6 1 9 11 ].
Proof.
  apply (separate_rows_input_order
           [ Word "a" 0 0 5 10; Word "b" 6 1 9 11 ]
           [ Word "b" 6 1 9 11; Word "a" 0 0 5 10 ]).
  - apply perm_swap.
  - intros a b Ha Hb Hy Hx. simpl in Ha, Hb.
    destruct Ha as [<-|[<-|[]]]; destruct Hb as [<-|[<-|[]]];
      try reflexivity; vm_compute in Hy; discriminate.
Defined.

(** ** The marker: which cells it touches *)

Lemma mark_cell_nonblank (pw : list word) (lv lv' : locals) (c c' : cell) :
  mark_cell pw lv c = Ok (lv', c') -> cell_kept_or_marked_nonblank c c'.
Proof.
  unfold mark_cell.
  destruct (horizontal_gap_check pw lv c) as [lv1 b].
  destruct (sum_of_gaps_check lv1) as [s|e]; [|discriminate].
  destruct ((should_mark_based_on_content_and_newlines (snd c) || b || s)
            && text_truthy (snd c) && text_nonblank (snd c)) eqn:E;
    intro H; injection H as _ <-.
  - right. apply andb_true_iff in E as [_ E].
    destruct c as [bb [t|]]; [|discriminate].
    exists t. repeat split. exact E.
  - now left.
Qed.

Section Cellwise.
Variable R : cell -> cell -> Prop.
Hypothesis R_refl : forall c, R c c.
Hypothesis R_mark :
  forall pw lv c lv' c', mark_cell pw lv c = Ok (lv', c') -> R c c'.

Lemma mark_cells_cellwise (pw : list word) (cells : row) :
  forall lv, Forall2 R cells (fst (mark_cells pw lv cells)).
Proof.
  induction cells as [|c cells IH]; intro lv; simpl.
  - constructor.
  - destruct (mark_cell pw lv c) as [[lv' c']|e] eqn:Ec.
    + specialize (IH lv').
      destruct (mark_cells pw lv' cells) as [o r']. simpl in *.
      constructor; [exact (R_mark _ _ _ _ _ Ec) | exact IH].
    + simpl. apply Forall2_same. exact R_refl.
Qed.

Lemma scan_row_cellwise (pw : list word) (st : scan_state) (idx : Z) (r : row) :
  Forall2 R r (fst (scan_row pw st idx r)).
Proof.
  unfold scan_row.
  destruct (header_found_in_table (detect_header st idx r)
            && (header_row_index (detect_header st idx r) <? idx)%Z
            && (1 <? none_count_in_row r)%nat).
  - pose proof (mark_cells_cellwise pw r (scan_locals (detect_header st idx r)))
      as H.
    destruct (mark_cells pw (scan_locals (detect_header st idx r)) r) as [o res].
    exact H.
  - apply Forall2_same. exact R_refl.
Qed.

Lemma scan_rows_cellwise (pw : list word) (rows : table) :
  forall st idx, Forall2 (Forall2 R) rows (fst (scan_rows pw st idx rows)).
Proof.
  induction rows as [|r rows IH]; intros st idx; simpl.
  - constructor.
  - pose proof (scan_row_cellwise pw st idx r) as Hr.
    destruct (scan_row pw st idx r) as [o [st1|e]]; simpl in Hr.
    + specialize (IH st1 (idx + 1)%Z).
      destruct (scan_rows pw st1 (idx + 1)%Z rows) as [outs res]. simpl in *.
      now constructor.
    + simpl. constructor; [exact Hr|].
      apply Forall2_same. intro x. apply Forall2_same. exact R_refl.
Qed.
End Cellwise.

(** X4. Whatever the outcome of the scan of a table, the table keeps
    its shape and every cell is either kept as it was or has the marker
    put in front of its text with its box unchanged; a cell is changed
    only if its text is not blank, so cells with no text, empty text or
    white space only are never marked. *)
Theorem blank_cells_never_marked (page_words : list word) (lv : locals)
    (table_rows : table) :
  Forall2 (Forall2 cell_kept_or_marked_nonblank) table_rows
    (fst (scan_table page_words lv table_rows)).
Proof.
  unfold scan_table. apply scan_rows_cellwise.
  - intro c. now left.
  - intros pw lv0 c lv' c'. apply mark_cell_nonblank.
Qed.

(** X5. Once [current_cell_words] is assigned (and the average width
    with it when the list has more than one word), the scan of a table
    completes without an exception and leaves them assigned. *)
Theorem scan_completes_once_words_assigned (page_words : list word)
    (lv : locals) (table_rows : table) :
  locals_bound lv ->
  exists st,
    snd (scan_table page_words lv table_rows) = Ok st
    /\ locals_bound (scan_locals st).
Proof.
  intro H. unfold scan_table.
  apply (scan_rows_bound page_words table_rows (scan_start lv) 0%Z). exact H.
Qed.

Lemma scan_completes_once_words_assigned_witness :
  exists st,
    snd (scan_table [] (Locals (Some []) None) [ex_header; ex_null]) = Ok st
    /\ locals_bound (scan_locals st).
Proof.
  apply (scan_completes_once_words_assigned [] (Locals (Some []) None)
           [ex_header; ex_null]).
  unfold locals_bound. simpl. intro H. inversion H.
Defined.

(** ** The marker: what can be raised *)

Lemma horizontal_gap_check_consistent (pw : list word) (lv : locals) (c : cell) :
  locals_consistent lv ->
  locals_consistent (fst (horizontal_gap_check pw lv c)).
Proof.
  intro H. unfold horizontal_gap_check.
  destruct c as [[bb|] [t|]]; cbn [fst]; try exact H.
  destruct (PyStr.truthy t); [|exact H].
  destruct (1 <? List.length (filter (word_in_cell bb) pw))%nat eqn:El;
    unfold locals_consistent; cbn [fst current_cell_words avg_word_width].
  - intros _. discriminate.
  - intro Hlen. apply Nat.ltb_ge in El. lia.
Qed.

Lemma sum_of_gaps_check_consistent (lv : locals) :
  locals_consistent lv -> only_unbound_words (sum_of_gaps_check lv).
Proof.
  unfold locals_consistent, sum_of_gaps_check, only_unbound_words.
  destruct (current_cell_words lv) as [ws|]; [|reflexivity].
  intro H. destruct (1 <? List.length ws)%nat eqn:El; [|exact I].
  apply Nat.ltb_lt in El. specialize (H El).
  destruct (avg_word_width lv) as [a|]; [exact I | congruence].
Qed.

Lemma mark_cell_consistent (pw : list word) (lv : locals) (c : cell) :
  locals_consistent lv ->
  match mark_cell pw lv c with
  | Ok (lv', _) => locals_consistent lv'
  | Raise e => e = UnboundLocalError "current_cell_words"
  end.
Proof.
  intro H. apply (horizontal_gap_check_consistent pw lv c) in H.
  unfold mark_cell.
  destruct (horizontal_gap_check pw lv c) as [lv1 b]. cbn [fst] in H.
  pose proof (sum_of_gaps_check_consistent lv1 H) as Hs.
  destruct (sum_of_gaps_check lv1) as [s|e]; [|exact Hs].
  destruct ((should_mark_based_on_content_and_newlines (snd c) || b || s)
            && text_truthy (snd c) && text_nonblank (snd c)); exact H.
Qed.

Lemma mark_cells_consistent (pw : list word) (cells : row) :
  forall lv, locals_consistent lv ->
    match snd (mark_cells pw lv cells) with
    | Ok lv' => locals_consistent lv'
    | Raise e => e = UnboundLocalError "current_cell_words"
    end.
Proof.
  induction cells as [|c cells IH]; intros lv H; simpl.
  - exact H.
  - pose proof (mark_cell_consistent pw lv c H) as Hc.
    destruct (mark_cell pw lv c) as [[lv' c']|e]; [|exact Hc].
    specialize (IH lv' Hc).
    destruct (mark_cells pw lv' cells) as [o r]. exact IH.
Qed.

Lemma scan_rows_consistent (pw : list word) (rows : table) :
  forall st idx, locals_consistent (scan_locals st) ->
    match snd (scan_rows pw st idx rows) with
    | Ok st' => locals_consistent (scan_locals st')
    | Raise e => e = UnboundLocalError "current_cell_words"
    end.
Proof.
  induction rows as [|r rows IH]; intros st idx H; simpl.
  - exact H.
  - assert (Hrow : match snd (scan_row pw st idx r) with
                   | Ok st' => locals_consistent (scan_locals st')
                   | Raise e => e = UnboundLocalError "current_cell_words"
                   end).
    { unfold scan_row.
      assert (Hd : locals_consistent (scan_locals (detect_header st idx r)))
        by (unfold detect_header; destruct (row_is_header r); exact H).
      destruct (header_found_in_table (detect_header st idx r)
                && (header_row_index (detect_header st idx r) <? idx)%Z
                && (1 <? none_count_in_row r)%nat); [|exact Hd].
      pose proof (mark_cells_consistent pw r _ Hd) as Hm.
      destruct (mark_cells pw (scan_locals (detect_header st idx r)) r)
        as [o [lv'|e]]; exact Hm. }
    destruct (scan_row pw st idx r) as [o [st1|e]]; [|exact Hrow].
    specialize (IH st1 (idx + 1)%Z Hrow).
    destruct (scan_rows pw st1 (idx + 1)%Z rows) as [outs res]. exact IH.
Qed.

(** After a completed scan that found a header, the header index is a
    row index of the table: the assembler does not raise. *)
Lemma create_structured_table_after_scan (pw : list word) (lv : locals)
    (table_rows out : table) (st : scan_state) :
  scan_table pw lv table_rows = (out, Ok st) ->
  header_found_in_table st = true ->
  exists structured,
    create_structured_table out (header_row_index st) pw = Ok structured.
Proof.
  intros Hscan Hfound.
  destruct (scan_table_marking _ _ _ _ _ Hscan) as [Hlen _].
  destruct (scan_table_header _ _ _ _ _ Hscan)
    as [[_ Hd] | [k [r [Hk [_ [Hd _]]]]]];
    injection Hd as Hf Hi; [congruence|].
  assert (Hlt : (k < List.length out)%nat)
    by (rewrite Hlen; apply nth_error_Some; congruence).
  unfold create_structured_table. rewrite Hi.
  assert (E1 : (Z.of_nat k =? -1)%Z = false) by (apply Z.eqb_neq; lia).
  assert (E2 : (Z.of_nat (List.length out) <=? Z.of_nat k)%Z = false)
    by (apply Z.leb_gt; lia).
  rewrite E1, E2. cbn [orb]. unfold py_index.
  assert (E3 : (0 <=? Z.of_nat k)%Z = true) by (apply Z.leb_le; lia).
  rewrite E3, Nat2Z.id.
  destruct (nth_error out k) as [h|] eqn:En; [now eexists|].
  apply nth_error_None in En. lia.
Qed.

Lemma process_tables_consistent (pw : list word) (page_tables : list table) :
  forall lv collected, locals_consistent lv ->
    match snd (process_tables pw lv collected page_tables) with
    | Ok (lv', _) => locals_consistent lv'
    | Raise e => e = UnboundLocalError "current_cell_words"
    end.
Proof.
  induction page_tables as [|t rest IH]; intros lv collected H; simpl.
  - exact H.
  - pose proof (scan_rows_consistent pw t (scan_start lv) 0%Z H) as Hs.
    fold (scan_table pw lv t) in Hs.
    destruct (scan_table pw lv t) as [out [st|e]] eqn:Escan; [|exact Hs].
    cbn [snd] in Hs.
    destruct (header_found_in_table st) eqn:Ef.
    + destruct (create_structured_table_after_scan _ _ _ _ _ Escan Ef)
        as [structured ->].
      specialize (IH (scan_locals st)
                    (match structured with
                     | [] => collected
                     | _ => collected ++ [structured]
                     end) Hs).
      destruct (process_tables pw (scan_locals st) _ rest) as [outs r].
      exact IH.
    + specialize (IH (scan_locals st) collected Hs).
      destruct (process_tables pw (scan_locals st) collected rest) as [outs r].
      exact IH.
Qed.

Lemma process_pages_consistent (pages : list (string * page_data)) :
  forall lv collected, locals_consistent lv ->
    match snd (process_pages lv collected pages) with
    | Ok (lv', _) => locals_consistent lv'
    | Raise e =>
        e = UnboundLocalError "current_cell_words"
        \/ exists p, In p pages /\ list_words (fst p) (words (snd p)) = Raise e
    end.
Proof.
  induction pages as [|[name pd] rest IH]; intros lv collected H; simpl.
  - exact H.
  - pose proof (process_tables_consistent (words pd) (tables pd) lv collected H)
      as Ht.
    destruct (process_tables (words pd) lv collected (tables pd))
      as [out [[lv' collected']|e]]; cbn [snd] in Ht; [|now left].
    destruct (list_words name (words pd)) as [u|e] eqn:El.
    + specialize (IH lv' collected' Ht).
      destruct (process_pages lv' collected' rest) as [outs [[lv2 c2]|e]];
        cbn [snd] in *; [exact IH|].
      destruct IH as [IH | [p [Hp He]]]; [now left|].
      right. exists p. split; [now right | exact He].
    + cbn [snd]. right. exists (name, pd). split; [now left | exact El].
Qed.

(** X6. The only exception header detection, marking and assembly can
    end in is the read of [current_cell_words] before assignment:
    [avg_word_width] is never read unassigned, and the header index given
    to [create_structured_table] is always a row index of the table.
    Any other exception of [print_formatted_output] is one that the word
    listing of a page raises. *)
Theorem only_unassigned_words_can_raise
    (coordinates_data : list (string * page_data)) :
  unbound_words_or_listing coordinates_data
    (snd (print_formatted_output coordinates_data))
  /\ forall (page_words : list word) (lv : locals)
            (collected : list (list (list string))) (page_tables : list table),
       locals_consistent lv ->
       only_unbound_words
         (snd (process_tables page_words lv collected page_tables)).
Proof.
  split.
  - unfold print_formatted_output, unbound_words_or_listing.
    pose proof (process_pages_consistent coordinates_data unbound [] I) as H.
    destruct (process_pages unbound [] coordinates_data) as [out [[lv c]|e]];
      [exact I | exact H].
  - intros page_words lv collected page_tables H.
    pose proof (process_tables_consistent page_words page_tables lv collected H)
      as Ht.
    unfold only_unbound_words.
    destruct (snd (process_tables page_words lv collected page_tables))
      as [[lv' c]|e]; [exact I | exact Ht].
Qed.

Lemma only_unassigned_words_can_raise_witness :
  only_unbound_words
    (snd (process_tables [] unbound [] [[ex_header; ex_null]])).
Proof.
  exact (proj2 (only_unassigned_words_can_raise [])
           [] unbound [] [[ex_header; ex_null]] I).
Defined.

(** ** Tables without a header, and rows the marker changed *)

Lemma scan_rows_no_header (pw : list word) (rows : table) :
  forall st idx,
    header_found_in_table st = false ->
    Forall (fun r => row_is_header r = false) rows ->
    scan_rows pw st idx rows = (rows, Ok st).
Proof.
  induction rows as [|r rows IH]; intros st idx Hf Hall; simpl.
  - reflexivity.
  - inversion Hall as [|? ? Hr Hrest]; subst.
    unfold scan_row, detect_header. rewrite Hr, Hf. cbn [andb].
    now rewrite (IH st (idx + 1)%Z Hf Hrest).
Qed.

(** X7. A table in which no row qualifies as header is left untouched
    by the scan, whatever the locals hold: no cell is marked, nothing is
    raised, no header is reported, and the table adds no structured
    table to those collected. *)
Theorem table_without_header_untouched (page_words : list word) (lv : locals)
    (table_rows : table) (collected : list (list (list string))) :
  Forall (fun r => ~ qualifies r) table_rows ->
  scan_table page_words lv table_rows
  = (table_rows, Ok (ScanState false (-1)%Z lv))
  /\ process_tables page_words lv collected [table_rows]
     = ([table_rows], Ok (lv, collected)).
Proof.
  intro Hnone.
  assert (Hscan : scan_table page_words lv table_rows
                  = (table_rows, Ok (ScanState false (-1)%Z lv))).
  { unfold scan_table. apply scan_rows_no_header; [reflexivity|].
    eapply Forall_impl; [|exact Hnone].
    intros r Hr. destruct (row_is_header r) eqn:E; [|reflexivity].
    apply row_is_header_qualifies in E. contradiction. }
  split; [exact Hscan|].
  simpl. rewrite Hscan. reflexivity.
Qed.

Lemma table_without_header_untouched_witness :
  scan_table ex_words unbound [ex_plain; ex_null]
  = ([ex_plain; ex_null], Ok (ScanState false (-1)%Z unbound))
  /\ process_tables ex_words unbound [] [[ex_plain; ex_null]]
     = ([[ex_plain; ex_null]], Ok (unbound, [])).
Proof.
  apply (table_without_header_untouched ex_words unbound [ex_plain; ex_null] []).
  repeat constructor; intro Hq; apply row_is_header_qualifies in Hq;
    vm_compute in Hq; discriminate.
Defined.

Lemma marked_cell_is_marked (c : cell) (text : string) :
  cell_is_marked (fst c, Some (PyStr.MARK ++ text)%string) = true.
Proof.
  unfold cell_is_marked. cbn [snd]. unfold PyStr.MARK. simpl.
  destruct (ascii_dec "#" "#") as [_|n]; [|congruence].
  destruct (ascii_dec "$" "$") as [_|n]; [|congruence].
  reflexivity.
Qed.

Lemma changed_row_has_marked_cell (r r' : row) :
  Forall2 cell_kept_or_marked r r' ->
  r' = r \/ current_row_has_marked_cells r' = true.
Proof.
  unfold current_row_has_marked_cells.
  induction 1 as [|c c' r r' Hc HF IH].
  - now left.
  - destruct Hc as [->|[text [_ ->]]].
    + destruct IH as [->|IH]; [now left|].
      right. simpl. rewrite IH. apply orb_true_r.
    + right. cbn [existsb]. now rewrite marked_cell_is_marked.
Qed.

(** X8. Every row that the scan changed contains a cell that
    [create_structured_table] recognises as marked, so the assembler
    rebuilds that row from the page words (the marked-row path). *)
Theorem changed_row_takes_marked_path (page_words : list word) (lv : locals)
    (table_rows : table) (k : nat) (row_in row_out : row)
    (cols : list boundary) (assembler_words : list word) :
  nth_error table_rows k = Some row_in ->
  nth_error (fst (scan_table page_words lv table_rows)) k = Some row_out ->
  row_out <> row_in ->
  current_row_has_marked_cells row_out = true
  /\ row_entries cols assembler_words (Z.of_nat k) row_out
     = marked_row_entries cols assembler_words row_out.
Proof.
  intros Hin Hout Hneq.
  destruct (scan_table page_words lv table_rows) as [out res] eqn:E.
  cbn [fst] in Hout.
  destruct (scan_table_marking _ _ _ _ _ E) as [_ Hrows].
  assert (Hmarked : current_row_has_marked_cells row_out = true).
  { destruct (Hrows k row_in row_out Hin Hout) as [->|[HF _]];
      [congruence|].
    destruct (changed_row_has_marked_cell _ _ HF) as [->|H];
      [congruence | exact H]. }
  split; [exact Hmarked|].
  unfold row_entries. now rewrite Hmarked.
Qed.

Lemma changed_row_takes_marked_path_witness :
  current_row_has_marked_cells ex_merged_marked = true
  /\ row_entries [(0, 50); (50, 100)] ex_words 1 ex_merged_marked
     = marked_row_entries [(0, 50); (50, 100)] ex_words ex_merged_marked.
Proof.
  apply (changed_row_takes_marked_path ex_words unbound [ex_header; ex_merged]
           1 ex_merged ex_merged_marked [(0, 50); (50, 100)] ex_words
           eq_refl eq_refl).
  discriminate.
Defined.

(** ** [create_structured_table]: the header index and the rows returned *)

Lemma create_structured_table_valid (table_rows : table) (idx : Z)
    (header_cells : row) (pw : list word) :
  (0 <= idx)%Z ->
  nth_error table_rows (Z.to_nat idx) = Some header_cells ->
  create_structured_table table_rows idx pw
  = Ok (structure_with_header table_rows header_cells pw).
Proof.
  intros Hidx Hhdr.
  assert (Hlt : (Z.to_nat idx < List.length table_rows)%nat)
    by (apply nth_error_Some; congruence).
  unfold create_structured_table.
  assert (E1 : (idx =? -1)%Z = false) by (apply Z.eqb_neq; lia).
  assert (E2 : (Z.of_nat (List.length table_rows) <=? idx)%Z = false)
    by (apply Z.leb_gt; lia).
  rewrite E1, E2. cbn [orb]. unfold py_index.
  assert (E3 : (0 <=? idx)%Z = true) by now apply Z.leb_le.
  now rewrite E3, Hhdr.
Qed.

Lemma column_boundaries_none (header_cells : row) :
  Forall (fun c : cell => fst c = None) header_cells ->
  column_boundaries_of header_cells = [].
Proof.
  unfold column_boundaries_of.
  induction 1 as [|c r Hc Hr IH]; simpl; [reflexivity|].
  now rewrite Hc, IH.
Qed.

(** X9. The header index of [create_structured_table]: [-1] or an
    index past the last row gives the empty table; an index from
    [-len] to [-2] counts rows from the end, as list indexing does; the
    call raises [IndexError] exactly for an index below both [-1] and
    [-len]; and a header row none of whose cells has a box gives the
    empty table. *)
Theorem create_structured_table_header_index (table_rows : table) (idx : Z)
    (pw : list word) :
  ((idx = -1 \/ Z.of_nat (List.length table_rows) <= idx)%Z ->
   create_structured_table table_rows idx pw = Ok [])
  /\ (forall header_cells,
        (idx < -1)%Z -> (0 <= Z.of_nat (List.length table_rows) + idx)%Z ->
        nth_error table_rows (Z.to_nat (Z.of_nat (List.length table_rows) + idx))
        = Some header_cells ->
        create_structured_table table_rows idx pw
        = Ok (structure_with_header table_rows header_cells pw))
  /\ (create_structured_table table_rows idx pw = Raise IndexError
      <-> (idx < -1 /\ idx < - Z.of_nat (List.length table_rows))%Z)
  /\ (forall header_cells,
        py_index table_rows idx = Some header_cells ->
        Forall (fun c : cell => fst c = None) header_cells ->
        create_structured_table table_rows idx pw = Ok []).
Proof.
  unfold create_structured_table, py_index.
  split; [|split; [|split]].
  - intros [-> | H].
    + reflexivity.
    + destruct (idx =? -1)%Z; [reflexivity|].
      assert (E : (Z.of_nat (List.length table_rows) <=? idx)%Z = true)
        by now apply Z.leb_le.
      now rewrite E.
  - intros header_cells H1 H2 Hn.
    assert (E1 : (idx =? -1)%Z = false) by (apply Z.eqb_neq; lia).
    assert (E2 : (Z.of_nat (List.length table_rows) <=? idx)%Z = false)
      by (apply Z.leb_gt; lia).
    assert (E3 : (0 <=? idx)%Z = false) by (apply Z.leb_gt; lia).
    assert (E4 : (0 <=? Z.of_nat (List.length table_rows) + idx)%Z = true)
      by now apply Z.leb_le.
    now rewrite E1, E2, E3, E4, Hn.
  - split.
    + destruct (idx =? -1)%Z eqn:E1; [discriminate|].
      destruct (Z.of_nat (List.length table_rows) <=? idx)%Z eqn:E2;
        [discriminate|].
      apply Z.eqb_neq in E1. apply Z.leb_gt in E2. cbn [orb].
      destruct (0 <=? idx)%Z eqn:E3.
      * apply Z.leb_le in E3.
        destruct (nth_error table_rows (Z.to_nat idx)) eqn:En; [discriminate|].
        apply nth_error_None in En. lia.
      * apply Z.leb_gt in E3.
        destruct (0 <=? Z.of_nat (List.length table_rows) + idx)%Z eqn:E4.
        -- apply Z.leb_le in E4.
           destruct (nth_error table_rows
                       (Z.to_nat (Z.of_nat (List.length table_rows) + idx)))
             eqn:En; [discriminate|].
           apply nth_error_None in En. lia.
        -- apply Z.leb_gt in E4. intros _. lia.
    + intros [H1 H2].
      assert (E1 : (idx =? -1)%Z = false) by (apply Z.eqb_neq; lia).
      assert (E2 : (Z.of_nat (List.length table_rows) <=? idx)%Z = false)
        by (apply Z.leb_gt; lia).
      assert (E3 : (0 <=? idx)%Z = false) by (apply Z.leb_gt; lia).
      assert (E4 : (0 <=? Z.of_nat (List.length table_rows) + idx)%Z = false)
        by (apply Z.leb_gt; lia).
      now rewrite E1, E2, E3, E4.
  - intros header_cells Hh Hnone.
    destruct ((idx =? -1)%Z || (Z.of_nat (List.length table_rows) <=? idx)%Z);
      [reflexivity|].
    rewrite Hh. unfold structure_with_header.
    now rewrite (column_boundaries_none _ Hnone).
Qed.

Lemma create_structured_table_header_index_witness :
  create_structured_table [ex_header; ex_plain] (-2) []
  = Ok (structure_with_header [ex_header; ex_plain] ex_header [])
  /\ create_structured_table [ex_header; ex_plain] 2 [] = Ok []
  /\ create_structured_table [ex_null; ex_plain] 0 [] = Ok [].
Proof.
  destruct (create_structured_table_header_index [ex_header; ex_plain] (-2) [])
    as [_ [Hneg _]].
  destruct (create_structured_table_header_index [ex_header; ex_plain] 2 [])
    as [Hpast _].
  destruct (create_structured_table_header_index [ex_null; ex_plain] 0 [])
    as [_ [_ [_ Hnone]]].
  split; [|split].
  - apply Hneg; [reflexivity | discriminate | reflexivity].
  - apply Hpast. right. simpl. apply Z.le_refl.
  - apply (Hnone ex_null); [reflexivity | repeat constructor].
Defined.

(** The rows collected have one string per column and are not blank. *)
Lemma place_word_length (cols : list boundary) (wic : list (list string))
    (w : word) :
  List.length (place_word cols wic w) = List.length wic.
Proof.
  unfold place_word.
  destruct (negb (column_of_word cols w =? -1)%Z);
    [apply update_at_length | reflexivity].
Qed.

Lemma fold_place_word_length (cols : list boundary) (ws : list word) :
  forall wic,
    List.length (fold_left (place_word cols) ws wic) = List.length wic.
Proof.
  induction ws as [|w ws IH]; intro wic; simpl; [reflexivity|].
  now rewrite IH, place_word_length.
Qed.

Lemma structure_sub_row_entries (cols : list boundary) (y : Q)
    (ws : list word) :
  Forall (fun e : positioned =>
            List.length (snd e) = List.length cols
            /\ any_nonblank (snd e) = true)
    (structure_sub_row cols y ws).
Proof.
  unfold structure_sub_row.
  destruct (any_nonblank
              (map join_column
                 (fold_left (place_word cols) ws
                    (repeat [] (List.length cols))))) eqn:E;
    [|constructor].
  constructor; [|constructor]. cbn [snd]. split; [|exact E].
  now rewrite length_map, fold_place_word_length, repeat_length.
Qed.

Lemma row_entries_shape (cols : list boundary) (pw : list word) (idx : Z)
    (r : row) :
  Forall (fun e : positioned =>
            List.length (snd e) = List.length cols
            /\ any_nonblank (snd e) = true)
    (row_entries cols pw idx r).
Proof.
  unfold row_entries.
  destruct (current_row_has_marked_cells r).
  - unfold marked_row_entries.
    destruct (row_span r) as [[mn mx]|]; [|constructor].
    apply Forall_forall. intros e He.
    apply in_flat_map in He as [ws [_ He]].
    pose proof (structure_sub_row_entries cols mn ws) as H.
    rewrite Forall_forall in H. now apply H.
  - unfold raw_row_entries.
    destruct (any_nonblank (mapped_raw_row cols r)) eqn:E; [|constructor].
    constructor; [|constructor]. cbn [snd]. split; [|exact E].
    unfold mapped_raw_row.
    now rewrite fold_map_raw_cell_length, repeat_length.
Qed.

Lemma rows_with_positions_shape (cols : list boundary) (pw : list word)
    (table_rows : table) :
  forall idx,
    Forall (fun e : positioned =>
              List.length (snd e) = List.length cols
              /\ any_nonblank (snd e) = true)
      (rows_with_positions_from cols pw idx table_rows).
Proof.
  induction table_rows as [|r rows IH]; intro idx; simpl.
  - constructor.
  - apply Forall_app. split; [apply row_entries_shape | apply IH].
Qed.

Lemma structure_with_header_shape (table_rows : table) (header_cells : row)
    (pw : list word) :
  Forall (fun r : list string =>
            List.length r = List.length (column_boundaries_of header_cells)
            /\ any_nonblank r = true)
    (structure_with_header table_rows header_cells pw).
Proof.
  unfold structure_with_header.
  destruct (column_boundaries_of header_cells) as [|c cols] eqn:E;
    [constructor|].
  apply Forall_map.
  eapply Permutation_Forall; [apply Permutation_sym, py_sorted_perm|].
  apply rows_with_positions_shape.
Qed.

(** X10. Every row of the table returned by [create_structured_table]
    has exactly one string per column boundary of the header row, and at
    least one of its strings is not blank. *)
Theorem structured_rows_shape (table_rows : table) (idx : Z) (pw : list word)
    (header_cells : row) (out : list (list string)) :
  py_index table_rows idx = Some header_cells ->
  create_structured_table table_rows idx pw = Ok out ->
  Forall (fun r : list string =>
            List.length r = List.length (column_boundaries_of header_cells)
            /\ any_nonblank r = true) out.
Proof.
  unfold create_structured_table. intros Hh.
  destruct ((idx =? -1)%Z || (Z.of_nat (List.length table_rows) <=? idx)%Z).
  - intro H. injection H as <-. constructor.
  - rewrite Hh. intro H. injection H as <-.
    apply structure_with_header_shape.
Qed.

Lemma structured_rows_shape_witness :
  Forall (fun r : list string =>
            List.length r = List.length (column_boundaries_of ex_header)
            /\ any_nonblank r = true)
    [["Item"%string; "Qty Rate"%string]; ["widget"%string; "4"%string]].
Proof.
  exact (structured_rows_shape [ex_header; ex_plain] 0 [] ex_header
           [["Item"%string; "Qty Rate"%string]; ["widget"%string; "4"%string]]
           eq_refl eq_refl).
Defined.

(** ** [create_structured_table]: tables without marked cells *)

Lemma blank_space : PyStr.has_nonspace " " = false.
Proof. reflexivity. Qed.

Lemma add_text_blank (t old : string) :
  PyStr.nonblank t = false -> PyStr.nonblank old = false ->
  PyStr.nonblank (add_text t old) = false.
Proof.
  unfold add_text. intros Ht Ho. destruct (PyStr.truthy old); [|exact Ht].
  rewrite PyStrFacts.nonblank_has_nonspace in *.
  now rewrite !PyStrFacts.has_nonspace_app, Ho, Ht, blank_space.
Qed.

Lemma update_at_keeps_blank (t : string) (m : list string) :
  forall i, PyStr.nonblank t = false -> any_nonblank m = false ->
            any_nonblank (update_at i (add_text t) m) = false.
Proof.
  unfold any_nonblank.
  induction m as [|s m IH]; intros [|i] Ht H; simpl in *; try exact H.
  - apply orb_false_iff in H as [Hs Hm].
    now rewrite (add_text_blank _ _ Ht Hs), Hm.
  - apply orb_false_iff in H as [Hs Hm].
    now rewrite Hs, (IH i Ht Hm).
Qed.

Lemma map_raw_cell_keeps_blank (cols : list boundary) (m : list string)
    (c : cell) :
  text_nonblank (snd c) = false -> any_nonblank m = false ->
  any_nonblank (map_raw_cell cols m c) = false.
Proof.
  intros Hc H. unfold map_raw_cell.
  destruct (snd c) as [t|]; [|exact H]. cbn [text_nonblank] in Hc.
  destruct (fst c) as [bb|].
  - destruct (negb (assigned_col cols bb =? -1)%Z);
      [now apply update_at_keeps_blank|].
    destruct (0 <? List.length cols)%nat;
      [now apply update_at_keeps_blank | exact H].
  - destruct (0 <? List.length cols)%nat;
      [now apply update_at_keeps_blank | exact H].
Qed.

Lemma repeat_empty_blank (n : nat) : any_nonblank (repeat EmptyString n) = false.
Proof. induction n as [|n IH]; [reflexivity | exact IH]. Qed.

(** With at least one column, the mapped row is not blank exactly when
    some cell of the row has a text that is not blank. *)
Lemma mapped_raw_row_has_text (cols : list boundary) (r : row) :
  cols <> [] -> any_nonblank (mapped_raw_row cols r) = row_has_text r.
Proof.
  intro Hcols. destruct (row_has_text r) eqn:E.
  - unfold row_has_text in E. apply existsb_exists in E as [c [Hin Hc]].
    destruct (snd c) as [t|] eqn:Et; [|discriminate].
    exact (mapped_raw_row_nonblank cols r c t Hcols Hin Et Hc).
  - unfold mapped_raw_row, row_has_text in *.
    assert (Hgen : forall m, any_nonblank m = false ->
                   any_nonblank (fold_left (map_raw_cell cols) r m) = false).
    { induction r as [|c r IH]; intros m Hm; [exact Hm|].
      simpl in E. apply orb_false_iff in E as [Hc Hr]. simpl.
      apply IH; [exact Hr|]. now apply map_raw_cell_keeps_blank. }
    apply Hgen, repeat_empty_blank.
Qed.

Lemma py_sorted_of_sorted {A} (leb : A -> A -> bool) (l : list A) :
  StronglySorted (fun a b => leb a b = true) l -> py_sorted leb l = l.
Proof.
  induction 1 as [|x l Hs IH Hx]; simpl; [reflexivity|].
  rewrite IH. destruct l as [|y l']; [reflexivity|].
  simpl. inversion Hx as [|? ? Hxy _]; subst. now rewrite Hxy.
Qed.

(** The entries of a table without marked cells: one per row that has
    text, in table order. *)
Lemma rows_with_positions_unmarked (cols : list boundary) (pw : list word)
    (table_rows : table) :
  cols <> [] ->
  Forall (fun r => current_row_has_marked_cells r = false) table_rows ->
  forall idx,
    map snd (rows_with_positions_from cols pw idx table_rows)
    = map (mapped_raw_row cols) (filter row_has_text table_rows).
Proof.
  intros Hcols Hall. induction Hall as [|r rows Hr Hrows IH]; intro idx; simpl.
  - reflexivity.
  - rewrite map_app, IH. unfold row_entries, raw_row_entries.
    rewrite Hr, (mapped_raw_row_has_text cols r Hcols).
    destruct (row_has_text r); reflexivity.
Qed.

(** X11. For a table in which no cell is marked (valid header index, at
    least one column), [create_structured_table] returns exactly one row
    per table row that has a cell with non-blank text: rows whose cells
    are all blank or without text are dropped, no row is split or
    merged. *)
Theorem unmarked_table_row_count (table_rows : table) (idx : Z)
    (header_cells : row) (pw : list word) :
  (0 <= idx)%Z ->
  nth_error table_rows (Z.to_nat idx) = Some header_cells ->
  column_boundaries_of header_cells <> [] ->
  Forall (fun r => current_row_has_marked_cells r = false) table_rows ->
  exists out,
    create_structured_table table_rows idx pw = Ok out
    /\ List.length out = List.length (filter row_has_text table_rows)
    /\ Permutation out
         (map (mapped_raw_row (column_boundaries_of header_cells))
            (filter row_has_text table_rows)).
Proof.
  intros Hidx Hh Hcols Hall.
  rewrite (create_structured_table_valid _ _ _ pw Hidx Hh).
  eexists. split; [reflexivity|].
  assert (Hperm : Permutation (structure_with_header table_rows header_cells pw)
            (map (mapped_raw_row (column_boundaries_of header_cells))
               (filter row_has_text table_rows))).
  { unfold structure_with_header.
    destruct (column_boundaries_of header_cells) as [|c cols] eqn:E;
      [congruence|].
    rewrite <- (rows_with_positions_unmarked (c :: cols) pw table_rows
                  Hcols Hall 0%Z).
    apply Permutation_map, py_sorted_perm. }
  split; [|exact Hperm].
  rewrite (Permutation_length Hperm). now rewrite length_map.
Qed.

Lemma unmarked_table_row_count_witness :
  exists out,
    create_structured_table [ex_header; ex_null; ex_plain] 0 ex_words = Ok out
    /\ List.length out = 2%nat
    /\ Permutation out
         (map (mapped_raw_row (column_boundaries_of ex_header))
            (filter row_has_text [ex_header; ex_null; ex_plain])).
Proof.
  assert (Hcols : column_boundaries_of ex_header <> [])
    by (vm_compute; discriminate).
  assert (Hall : Forall (fun r => current_row_has_marked_cells r = false)
                   [ex_header; ex_null; ex_plain])
    by (repeat constructor).
  exact (unmarked_table_row_count [ex_header; ex_null; ex_plain] 0 ex_header
           ex_words (Z.le_refl 0) eq_refl Hcols Hall).
Defined.

Lemma rows_with_positions_ordered (cols : list boundary) (pw : list word)
    (table_rows : table) :
  Forall (fun r => current_row_has_marked_cells r = false) table_rows ->
  Forall (fun r => words_in_raw_row pw r = []) table_rows ->
  forall idx,
    StronglySorted (fun a b => position_leb a b = true)
      (rows_with_positions_from cols pw idx table_rows)
    /\ Forall (fun e : positioned => inject_Z (idx * 100) <= fst e)
         (rows_with_positions_from cols pw idx table_rows).
Proof.
  intros Hall Hnone. induction Hall as [|r rows Hr Hrows IH]; intro idx; simpl.
  - split; constructor.
  - inversion Hnone as [|? ? Hw Hws]; subst.
    destruct (IH Hws (idx + 1)%Z) as [Hsorted Hlow].
    assert (Hlow' : Forall (fun e : positioned => inject_Z (idx * 100) <= fst e)
                      (rows_with_positions_from cols pw (idx + 1) rows)).
    { eapply Forall_impl; [|exact Hlow]. intros e He.
      eapply Qle_trans; [|exact He]. rewrite <- Zle_Qle. lia. }
    unfold row_entries, raw_row_entries, raw_row_y_pos. rewrite Hr, Hw.
    cbn [map].
    destruct (any_nonblank (mapped_raw_row cols r)); simpl.
    + split.
      * constructor; [exact Hsorted|].
        eapply Forall_impl; [|exact Hlow']. intros e He.
        unfold position_leb. cbn [fst]. now apply Qle_bool_iff.
      * constructor; [cbn [fst]; apply Qle_refl | exact Hlow'].
    + split; assumption.
Qed.

(** X12. For a table without marked cells whose rows no page word
    overlaps, the structured table is the table itself, row by row in
    the original order: each row with text mapped to the columns, the
    rows without text left out. *)
Theorem unmarked_table_keeps_row_order (table_rows : table) (idx : Z)
    (header_cells : row) (pw : list word) :
  (0 <= idx)%Z ->
  nth_error table_rows (Z.to_nat idx) = Some header_cells ->
  column_boundaries_of header_cells <> [] ->
  Forall (fun r => current_row_has_marked_cells r = false) table_rows ->
  Forall (fun r => words_in_raw_row pw r = []) table_rows ->
  create_structured_table table_rows idx pw
  = Ok (map (mapped_raw_row (column_boundaries_of header_cells))
          (filter row_has_text table_rows)).
Proof.
  intros Hidx Hh Hcols Hall Hnone.
  rewrite (create_structured_table_valid _ _ _ pw Hidx Hh). f_equal.
  unfold structure_with_header.
  destruct (column_boundaries_of header_cells) as [|c cols] eqn:E;
    [congruence|].
  destruct (rows_with_positions_ordered (c :: cols) pw table_rows
              Hall Hnone 0%Z) as [Hsorted _].
  rewrite (py_sorted_of_sorted _ _ Hsorted).
  now apply rows_with_positions_unmarked.
Qed.

Lemma unmarked_table_keeps_row_order_witness :
  create_structured_table [ex_header; ex_null; ex_plain] 0 ex_far_words
  = Ok [["Item"%string; "Qty Rate"%string]; ["widget"%string; "4"%string]].
Proof.
  assert (Hcols : column_boundaries_of ex_header <> [])
    by (vm_compute; discriminate).
  assert (Hall : Forall (fun r => current_row_has_marked_cells r = false)
                   [ex_header; ex_null; ex_plain])
    by (repeat constructor).
  assert (Hnone : Forall (fun r => words_in_raw_row ex_far_words r = [])
                    [ex_header; ex_null; ex_plain])
    by (repeat constructor).
  exact (unmarked_table_keeps_row_order [ex_header; ex_null; ex_plain] 0
           ex_header ex_far_words (Z.le_refl 0) eq_refl Hcols Hall Hnone).
Defined.

(** ** The column mapper: closest centre, best overlap, placing of words *)

(** The closest-centre loop, entered with a best distance [m] and index
    [b]: it keeps them when no column is strictly closer, and otherwise
    returns the first column of least distance. *)
Lemma closest_from_spec (center : Q) (cols : list boundary) :
  forall (i : Z) (m : Q) (b : Z),
    (closest_from i center (Some m) b cols = b
     /\ Forall (fun c => m <= center_distance center c) cols)
    \/ exists k col,
         closest_from i center (Some m) b cols = (i + Z.of_nat k)%Z
         /\ nth_error cols k = Some col
         /\ center_distance center col < m
         /\ Forall (fun c => center_distance center col
                             <= center_distance center c) cols
         /\ forall j cj, (j < k)%nat -> nth_error cols j = Some cj ->
                         center_distance center col < center_distance center cj.
Proof.
  induction cols as [|c cols IH]; intros i m b.
  - left. split; [reflexivity | constructor].
  - cbn [closest_from]. cbv zeta.
    fold (center_distance center c).
    destruct (Qltb (center_distance center c) m) eqn:E.
    + apply Qltb_lt in E. right.
      destruct (IH (i + 1)%Z (center_distance center c) i)
        as [[Hr Hall] | [k [col [Hr [Hk [Hlt [Hall Hbefore]]]]]]].
      * exists 0%nat, c. rewrite Hr.
        split; [lia|]. split; [reflexivity|]. split; [exact E|].
        split; [constructor; [apply Qle_refl | exact Hall]|].
        intros j cj Hj. lia.
      * exists (S k), col. rewrite Hr.
        split; [lia|]. split; [exact Hk|]. split; [lra|].
        split; [constructor; [lra | exact Hall]|].
        intros j cj Hj Hn. destruct j as [|j]; simpl in Hn.
        -- injection Hn as <-. exact Hlt.
        -- apply (Hbefore j cj); [lia | exact Hn].
    + apply Qltb_ge in E.
      destruct (IH (i + 1)%Z m b)
        as [[Hr Hall] | [k [col [Hr [Hk [Hlt [Hall Hbefore]]]]]]].
      * left. split; [exact Hr | constructor; assumption].
      * right. exists (S k), col. rewrite Hr.
        split; [lia|]. split; [exact Hk|]. split; [exact Hlt|].
        split; [constructor; [lra | exact Hall]|].
        intros j cj Hj Hn. destruct j as [|j]; simpl in Hn.
        -- injection Hn as <-. lra.
        -- apply (Hbefore j cj); [lia | exact Hn].
Qed.

Lemma closest_column_spec (x0 x1 : Q) (cols : list boundary) :
  cols <> [] ->
  exists k col,
    closest_column x0 x1 cols = Z.of_nat k
    /\ nth_error cols k = Some col
    /\ Forall (fun c => center_distance (word_center x0 x1) col
                        <= center_distance (word_center x0 x1) c) cols
    /\ forall j cj, (j < k)%nat -> nth_error cols j = Some cj ->
                    center_distance (word_center x0 x1) col
                    < center_distance (word_center x0 x1) cj.
Proof.
  destruct cols as [|c cols]; [congruence|]. intros _.
  unfold closest_column. cbn [closest_from]. cbv zeta.
  fold (center_distance (word_center x0 x1) c).
  destruct (closest_from_spec (word_center x0 x1) cols 1%Z
              (center_distance (word_center x0 x1) c) 0%Z)
    as [[Hr Hall] | [k [col [Hr [Hk [Hlt [Hall Hbefore]]]]]]].
  - exists 0%nat, c. change (0 + 1)%Z with 1%Z. rewrite Hr.
    split; [reflexivity|]. split; [reflexivity|].
    split; [constructor; [apply Qle_refl | exact Hall]|].
    intros j cj Hj. lia.
  - exists (S k), col. change (0 + 1)%Z with 1%Z. rewrite Hr.
    split; [lia|]. split; [exact Hk|].
    split; [constructor; [lra | exact Hall]|].
    intros j cj Hj Hn. destruct j as [|j]; simpl in Hn.
    + injection Hn as <-. exact Hlt.
    + apply (Hbefore j cj); [lia | exact Hn].
Qed.





Lemma column_of_word_in_range (cols : list boundary) (w : word) :
  cols <> [] ->
  exists k, column_of_word cols w = Z.of_nat k /\ (k < List.length cols)%nat.
Proof.
  intro Hcols. unfold column_of_word, find_column_for_word.
  destruct (find_column_from_result (w_x0 w) (w_x1 w) cols 0%Z)
    as [[Hr _] | [k [col [Hr [Hk _]]]]]; rewrite Hr.
  - cbn [Z.eqb Pos.eqb negb].
    destruct (closest_column_spec (w_x0 w) (w_x1 w) cols Hcols)
      as [k [col [Hc [Hk _]]]].
    exists k. split; [exact Hc | apply nth_error_Some; congruence].
  - assert (E : ((0 + Z.of_nat k =? -1) = false)%Z) by (apply Z.eqb_neq; lia).
    rewrite E. cbn [negb]. exists k.
    split; [lia | apply nth_error_Some; congruence].
Qed.

Lemma concat_update_at_append {A} (x : A) (l : list (list A)) :
  forall i, (i < List.length l)%nat ->
    Permutation (List.concat (update_at i (fun ws => ws ++ [x]) l))
      (List.concat l ++ [x]).
Proof.
  induction l as [|ws l IH]; intros [|i] Hi; simpl in *; try lia.
  - rewrite <- !app_assoc. apply Permutation_app_head.
    apply Permutation_app_comm.
  - rewrite <- !app_assoc. apply Permutation_app_head. apply IH. lia.
Qed.

Lemma fold_place_word_perm (cols : list boundary) (ws : list word) :
  cols <> [] ->
  forall wic, List.length wic = List.length cols ->
    Permutation (List.concat (fold_left (place_word cols) ws wic))
      (List.concat wic ++ map w_text ws).
Proof.
  intro Hcols. induction ws as [|w ws IH]; intros wic Hlen; simpl.
  - now rewrite app_nil_r.
  - eapply Permutation_trans;
      [apply IH; now rewrite place_word_length|].
    unfold place_word.
    destruct (column_of_word_in_range cols w Hcols) as [k [-> Hk]].
    assert (E : ((Z.of_nat k =? -1) = false)%Z) by (apply Z.eqb_neq; lia).
    rewrite E, Nat2Z.id. cbn [negb].
    eapply Permutation_trans;
      [apply Permutation_app_tail, concat_update_at_append; lia|].
    rewrite <- app_assoc. reflexivity.
Qed.

Lemma concat_repeat_nil {A} (n : nat) : List.concat (repeat (@nil A) n) = [].
Proof. induction n as [|n IH]; [reflexivity | exact IH]. Qed.

(** X15. In the marked-row path, with at least one column, every word
    of a logical sub-row is put in exactly one column: the word lists of
    the columns, taken together, hold the texts of the words of the
    sub-row, each as often as it occurs; no word is dropped or
    duplicated. *)
Theorem sub_row_words_all_placed (cols : list boundary)
    (sub_row_words : list word) :
  cols <> [] ->
  Permutation
    (List.concat (fold_left (place_word cols) sub_row_words
                    (repeat [] (List.length cols))))
    (map w_text sub_row_words).
Proof.
  intro Hcols.
  eapply Permutation_trans;
    [apply (fold_place_word_perm cols sub_row_words Hcols);
     apply repeat_length|].
  now rewrite concat_repeat_nil.
Qed.

Lemma sub_row_words_all_placed_witness :
  Permutation
    (List.concat (fold_left (place_word [(0, 50); (50, 100)]) ex_words
                    (repeat [] 2)))
    (map w_text ex_words).
Proof.
  apply (sub_row_words_all_placed [(0, 50); (50, 100)] ex_words).
  discriminate.
Defined.

(** ** [extract_pdf_coordinates]: shape of the cells, page keys *)

Lemma enumerate_from_snd {A} (l : list A) :
  forall i, map snd (enumerate_from i l) = l.
Proof.
  induction l as [|x l IH]; intro i; simpl; [reflexivity|].
  now rewrite IH.
Qed.

Lemma enumerate_from_fst {A} (l : list A) :
  forall i, map fst (enumerate_from i l) = seq i (List.length l).
Proof.
  induction l as [|x l IH]; intro i; simpl; [reflexivity|].
  now rewrite IH.
Qed.

Lemma extract_cell_box (ttd : list (list (option string))) (i j : nat)
    (cell_bbox : option bbox) :
  fst (extract_cell ttd i j cell_bbox) = cell_bbox
  /\ extractor_shaped (extract_cell ttd i j cell_bbox).
Proof.
  unfold extract_cell. destruct cell_bbox; split; simpl; trivial.
Qed.

Lemma extract_row_shape (ttd : list (list (option string))) (i : nat)
    (cells : list (option bbox)) :
  map fst (extract_row ttd i cells) = cells
  /\ Forall extractor_shaped (extract_row ttd i cells).
Proof.
  unfold extract_row. split.
  - rewrite map_map.
    rewrite (map_ext _ snd); [apply enumerate_from_snd|].
    intros [j b]. apply extract_cell_box.
  - apply Forall_map, Forall_forall. intros [j b] _. apply extract_cell_box.
Qed.

Lemma extract_table_shape_aux (t : plumber_table) :
  map (map fst) (extract_table t) = pt_rows t
  /\ Forall (Forall extractor_shaped) (extract_table t).
Proof.
  unfold extract_table. split.
  - rewrite map_map.
    rewrite (map_ext _ snd); [apply enumerate_from_snd|].
    intros [i cells]. apply extract_row_shape.
  - apply Forall_map, Forall_forall. intros [i cells] _.
    apply extract_row_shape.
Qed.


Lemma page_key_injective (n m : nat) : page_key n = page_key m -> n = m.
Proof.
  unfold page_key. intro H. simpl in H.
  injection H as H.
  assert (Hu : Some (Nat.to_uint (n + 1)) = Some (Nat.to_uint (m + 1))).
  { rewrite <- !DecimalString.NilEmpty.usu. now rewrite H. }
  injection Hu as Hu.
  assert (Hn : (n + 1 = m + 1)%nat).
  { rewrite <- (DecimalNat.Unsigned.of_to (n + 1)),
            <- (DecimalNat.Unsigned.of_to (m + 1)).
    now rewrite Hu. }
  lia.
Qed.

Lemma NoDup_map_injective {A B} (f : A -> B) (l : list A) :
  (forall a b, f a = f b -> a = b) -> NoDup l -> NoDup (map f l).
Proof.
  intros Hf. induction 1 as [|x l Hx Hl IH]; simpl; constructor.
  - intro Hin. apply in_map_iff in Hin as [y [Hy Hin]].
    apply Hf in Hy. subst. contradiction.
  - exact IH.
Qed.

(** X17. [extract_pdf_coordinates] returns one entry per page, in page
    order, under the keys [page_1], [page_2], ...; the keys are pairwise
    different, so no page overwrites another in the dictionary. *)
Theorem page_keys_distinct (pages : list plumber_page) :
  map fst (extract_pdf_coordinates pages)
  = map page_key (seq 0 (List.length pages))
  /\ map snd (extract_pdf_coordinates pages) = map extract_page pages
  /\ NoDup (map fst (extract_pdf_coordinates pages)).
Proof.
  unfold extract_pdf_coordinates.
  assert (Hkeys : map fst
            (map (fun ip : nat * plumber_page =>
                    (page_key (fst ip), extract_page (snd ip)))
               (enumerate_from 0 pages))
          = map page_key (seq 0 (List.length pages))).
  { rewrite map_map. cbn [fst].
    rewrite <- (enumerate_from_fst pages 0), map_map. reflexivity. }
  split; [exact Hkeys|]. split.
  - rewrite map_map. cbn [snd].
    rewrite <- (enumerate_from_snd pages 0) at 2. now rewrite map_map.
  - rewrite Hkeys. apply NoDup_map_injective;
      [apply page_key_injective | apply seq_NoDup].
Qed.

Lemma kept_or_marked_shaped (c c' : cell) :
  extractor_shaped c -> cell_kept_or_marked_nonblank c c' ->
  extractor_shaped c' /\ fst c' = fst c.
Proof.
  intros Hs [->|[text [Ht [_ ->]]]]; [now split|].
  destruct c as [[bb|] [t|]]; simpl in *; try contradiction;
    try discriminate; now split.
Qed.

Lemma Forall2_shaped (r r' : row) :
  Forall extractor_shaped r ->
  Forall2 cell_kept_or_marked_nonblank r r' ->
  Forall extractor_shaped r' /\ map fst r' = map fst r.
Proof.
  intros Hs HF. induction HF as [|c c' r r' Hc HF IH]; [now split|].
  inversion Hs as [|? ? Hc0 Hr]; subst.
  destruct (kept_or_marked_shaped _ _ Hc0 Hc) as [H1 H2].
  destruct (IH Hr) as [H3 H4].
  split; [now constructor | simpl; now rewrite H2, H4].
Qed.

Lemma scan_table_shaped (pw : list word) (lv : locals) (table_rows : table) :
  Forall (Forall extractor_shaped) table_rows ->
  Forall (Forall extractor_shaped) (fst (scan_table pw lv table_rows))
  /\ map (map fst) (fst (scan_table pw lv table_rows))
     = map (map fst) table_rows.
Proof.
  intro Hs.
  assert (HF : Forall2 (Forall2 cell_kept_or_marked_nonblank) table_rows
                 (fst (scan_table pw lv table_rows))).
  { unfold scan_table. apply scan_rows_cellwise.
    - intro c. now left.
    - intros pw0 lv0 c lv' c'. apply mark_cell_nonblank. }
  induction HF as [|r r' rows rows' Hr HF IH]; [now split|].
  inversion Hs as [|? ? Hr0 Hrows]; subst.
  destruct (Forall2_shaped _ _ Hr0 Hr) as [H1 H2].
  destruct (IH Hrows) as [H3 H4].
  split; [now constructor | simpl; now rewrite H2, H4].
Qed.

(** X18. Marking keeps the shape the extractor gives: after the scan of
    a table built by [extract_pdf_coordinates], whatever the outcome,
    the boxes are those of the pdfplumber table and every cell is still
    a box with a text or [(None, None)]; a cell without a box is never
    given a text, and so never a marker. *)
Theorem scan_keeps_extracted_shape (page_words : list word) (lv : locals)
    (t : plumber_table) :
  Forall (Forall extractor_shaped)
    (fst (scan_table page_words lv (extract_table t)))
  /\ map (map fst) (fst (scan_table page_words lv (extract_table t)))
     = pt_rows t.
Proof.
  destruct (extract_table_shape_aux t) as [Hboxes Hshaped].
  destruct (scan_table_shaped page_words lv (extract_table t) Hshaped)
    as [H1 H2].
  split; [exact H1 | now rewrite H2].
Qed.

(** ** [print_formatted_output]: what it leaves of its argument *)

Lemma process_tables_cellwise (pw : list word) (page_tables : list table) :
  forall lv collected,
    Forall2 (Forall2 (Forall2 cell_kept_or_marked_nonblank)) page_tables
      (fst (process_tables pw lv collected page_tables)).
Proof.
  induction page_tables as [|t rest IH]; intros lv collected; simpl.
  - constructor.
  - assert (Ht : Forall2 (Forall2 cell_kept_or_marked_nonblank) t
                   (fst (scan_table pw lv t))).
    { unfold scan_table. apply scan_rows_cellwise.
      - intro c. now left.
      - intros pw0 lv0 c lv' c'. apply mark_cell_nonblank. }
    assert (Hrest : Forall2 (Forall2 (Forall2 cell_kept_or_marked_nonblank))
                      rest rest).
    { apply Forall2_same. intro x. apply Forall2_same. intro y.
      apply Forall2_same. intro c. now left. }
    destruct (scan_table pw lv t) as [out [st|e]]; cbn [fst] in Ht;
      [|now constructor].
    destruct (if header_found_in_table st
              then create_structured_table out (header_row_index st) pw
              else Ok []) as [structured|e]; [|now constructor].
    match goal with
    | |- context [process_tables pw ?l ?c rest] =>
        specialize (IH l c); destruct (process_tables pw l c rest) as [outs r]
    end.
    now constructor.
Qed.

Lemma process_pages_cellwise (pages : list (string * page_data)) :
  forall lv collected,
    Forall2 (fun p q : string * page_data =>
               fst q = fst p
               /\ words (snd q) = words (snd p)
               /\ Forall2 (Forall2 (Forall2 cell_kept_or_marked_nonblank))
                    (tables (snd p)) (tables (snd q)))
      pages (fst (process_pages lv collected pages)).
Proof.
  induction pages as [|[name pd] rest IH]; intros lv collected; simpl.
  - constructor.
  - pose proof (process_tables_cellwise (words pd) (tables pd) lv collected)
      as Ht.
    assert (Hrest : Forall2 (fun p q : string * page_data =>
                       fst q = fst p
                       /\ words (snd q) = words (snd p)
                       /\ Forall2
                            (Forall2 (Forall2 cell_kept_or_marked_nonblank))
                            (tables (snd p)) (tables (snd q))) rest rest).
    { apply Forall2_same. intros [n p]. cbn [fst snd].
      repeat split. apply Forall2_same. intro x. apply Forall2_same.
      intro y. apply Forall2_same. intro c. now left. }
    destruct (process_tables (words pd) lv collected (tables pd))
      as [out [[lv' collected']|e]]; cbn [fst] in Ht.
    + destruct (list_words name (words pd)) as [u|e].
      * specialize (IH lv' collected').
        destruct (process_pages lv' collected' rest) as [outs r].
        constructor; [|exact IH]. cbn [fst snd words tables].
        now repeat split.
      * constructor; [cbn [fst snd words tables]; now repeat split|].
        exact Hrest.
    + constructor; [cbn [fst snd words tables]; now repeat split|].
      exact Hrest.
Qed.

(** X19. Whatever its outcome, [print_formatted_output] leaves the page
    data with the same pages under the same keys, the same words, and
    tables of the same shape in which every cell is either unchanged or
    has the marker in front of a text that was not blank, its box
    unchanged: marking is the only change it makes to its argument. *)
Theorem print_formatted_output_only_marks
    (coordinates_data : list (string * page_data)) :
  Forall2 (fun p q : string * page_data =>
             fst q = fst p
             /\ words (snd q) = words (snd p)
             /\ Forall2 (Forall2 (Forall2 cell_kept_or_marked_nonblank))
                  (tables (snd p)) (tables (snd q)))
    coordinates_data (fst (print_formatted_output coordinates_data)).
Proof.
  unfold print_formatted_output.
  pose proof (process_pages_cellwise coordinates_data unbound []) as H.
  destruct (process_pages unbound [] coordinates_data) as [out r].
  exact H.
Qed.

(** ** Header detection reads lowered texts only *)

Lemma row_text_content_lowered (r : row) :
  row_text_content r
  = flat_map (fun o : option string =>
                match o with
                | Some t => if PyStr.truthy t then [t] else []
                | None => []
                end) (lowered_texts r).
Proof.
  unfold row_text_content, lowered_texts.
  induction r as [|c r IH]; simpl; [reflexivity|].
  rewrite IH. destruct (snd c) as [t|]; simpl; [|reflexivity].
  now rewrite PyStrFacts.truthy_lower.
Qed.

(** X20. Whether a row is a header depends only on the lowered texts of
    its cells: two rows whose cell texts agree up to letter case get the
    same keyword count, the same metadata flag and the same verdict,
    whatever their boxes. *)
Theorem header_test_ignores_case_and_boxes (r r' : row) :
  lowered_texts r = lowered_texts r' ->
  matched_keyword_count r = matched_keyword_count r'
  /\ row_contains_metadata_pattern r = row_contains_metadata_pattern r'
  /\ row_is_header r = row_is_header r'.
Proof.
  intro H.
  assert (Hs : header_stats r = header_stats r').
  { unfold header_stats. now rewrite !row_text_content_lowered, H. }
  unfold row_is_header, matched_keyword_count, row_contains_metadata_pattern.
  now rewrite Hs.
Qed.

Lemma header_test_ignores_case_and_boxes_witness :
  row_is_header
    [ (None, Some "ITEM"%string); (Some (BBox 1 2 3 4), Some "Qty RATE"%string) ]
  = row_is_header ex_header.
Proof.
  apply (header_test_ignores_case_and_boxes
           [ (None, Some "ITEM"%string);
             (Some (BBox 1 2 3 4), Some "Qty RATE"%string) ]
           ex_header).
  reflexivity.
Defined.

(** ** Pages without any header row *)

Lemma process_tables_no_header (pw : list word) (page_tables : list table) :
  forall lv collected,
    Forall (Forall (fun r => row_is_header r = false)) page_tables ->
    process_tables pw lv collected page_tables
    = (page_tables, Ok (lv, collected)).
Proof.
  induction page_tables as [|t rest IH]; intros lv collected Hall; simpl.
  - reflexivity.
  - inversion Hall as [|? ? Ht Hrest]; subst.
    unfold scan_table.
    rewrite (scan_rows_no_header pw t (scan_start lv) 0%Z eq_refl Ht).
    cbn [header_found_in_table scan_start scan_locals].
    now rewrite (IH lv collected Hrest).
Qed.

Lemma listing_safe_ok (page_name : string) (page_words : list word) :
  listing_safe page_name page_words -> list_words page_name page_words = Ok tt.
Proof.
  intros [-> | [piece [Hs [Hp Hall]]]]; [reflexivity|].
  induction Hall as [|w ws Hw Hws IH]; [reflexivity|].
  simpl. unfold list_word. now rewrite Hs, Hp, Hw.
Qed.

Lemma process_pages_no_header (pages : list (string * page_data)) :
  forall lv collected,
    Forall (fun p : string * page_data =>
              Forall (Forall (fun r => row_is_header r = false))
                (tables (snd p))) pages ->
    Forall (fun p : string * page_data =>
              list_words (fst p) (words (snd p)) = Ok tt) pages ->
    process_pages lv collected pages = (pages, Ok (lv, collected)).
Proof.
  induction pages as [|[name pd] rest IH]; intros lv collected Hall Hlist;
    simpl.
  - reflexivity.
  - inversion Hall as [|? ? Hp Hrest]; subst. cbn [snd] in Hp.
    inversion Hlist as [|? ? Hl Hlrest]; subst. cbn [fst snd] in Hl.
    rewrite (process_tables_no_header (words pd) (tables pd) lv collected Hp).
    rewrite Hl, (IH lv collected Hrest Hlrest). destruct pd. reflexivity.
Qed.

(** X21. When no row of any table on any page qualifies as header, and
    the word listing of no page can raise (each page without words, or
    with a key that has a second piece and no single brace in that piece
    or in the text of a word), [print_formatted_output] completes
    without an exception, marks nothing (the page data are returned as
    they were given) and collects no structured table. *)
Theorem no_header_anywhere_nothing_done
    (coordinates_data : list (string * page_data)) :
  Forall (fun p : string * page_data =>
            Forall (Forall (fun r => ~ qualifies r)) (tables (snd p)))
    coordinates_data ->
  Forall (fun p : string * page_data =>
            listing_safe (fst p) (words (snd p)))
    coordinates_data ->
  print_formatted_output coordinates_data = (coordinates_data, Ok []).
Proof.
  intros Hall Hsafe. unfold print_formatted_output.
  rewrite (process_pages_no_header coordinates_data unbound []);
    [reflexivity | |].
  - eapply Forall_impl; [|exact Hall]. intros p Hp.
    eapply Forall_impl; [|exact Hp]. intros t Ht.
    eapply Forall_impl; [|exact Ht]. intros r Hr.
    destruct (row_is_header r) eqn:E; [|reflexivity].
    apply row_is_header_qualifies in E. contradiction.
  - eapply Forall_impl; [|exact Hsafe]. intros p Hp.
    now apply listing_safe_ok.
Qed.

Lemma no_header_anywhere_nothing_done_witness :
  print_formatted_output
    [("page_1"%string, PageData [[ex_plain; ex_null]] ex_words)]
  = ([("page_1"%string, PageData [[ex_plain; ex_null]] ex_words)], Ok []).
Proof.
  apply (no_header_anywhere_nothing_done
           [("page_1"%string, PageData [[ex_plain; ex_null]] ex_words)]).
  - repeat constructor; intro Hq; apply row_is_header_qualifies in Hq;
      vm_compute in Hq; discriminate.
  - constructor; [|constructor]. right. exists "1"%string.
    repeat split; repeat constructor.
Defined.

(** The word listing raises on a word with a single brace, and on a
    page key without an underscore, even when no table has a header. *)
Lemma word_listing_can_raise :
  print_formatted_output
    [("page_1"%string, PageData [[ex_plain]] [Word "}" 0 0 1 1])]
  = ([("page_1"%string, PageData [[ex_plain]] [Word "}" 0 0 1 1])],
     Raise FormatFieldError)
  /\ snd (print_formatted_output
            [("page"%string, PageData [] [Word "w" 0 0 1 1])])
     = Raise IndexError
  /\ snd (print_formatted_output
            [("page_1"%string, PageData [] [Word "{{}}" 0 0 1 1])])
     = Ok [].
Proof.
  repeat split; vm_compute; reflexivity.
Qed.

(** ** The marked-row path: one entry per logical sub-row *)

Module ContainsFacts.
Import PyStr.

Lemma prefix_self_app (k b : string) : prefix k (k ++ b) = true.
Proof.
  induction k as [|c k IH]; simpl; [destruct b; reflexivity|].
  destruct (ascii_dec c c); [exact IH | congruence].
Qed.

Lemma prefix_app_r (k : string) :
  forall s b, prefix k s = true -> prefix k (s ++ b) = true.
Proof.
  induction k as [|c k IH]; intros s b H.
  - destruct (s ++ b)%string; reflexivity.
  - destruct s as [|d s]; [discriminate|]. simpl in *.
    destruct (ascii_dec c d); [now apply IH | discriminate].
Qed.

Lemma contains_empty (s : string) : contains EmptyString s = true.
Proof. destruct s; reflexivity. Qed.

Lemma contains_app_r (k s b : string) :
  contains k s = true -> contains k (s ++ b) = true.
Proof.
  induction s as [|c s IH]; intro H.
  - simpl in H. rewrite orb_false_r in H.
    destruct k; [apply contains_empty | discriminate].
  - cbn [contains] in H. apply orb_true_iff in H as [H|H].
    + change (String c s ++ b)%string with (String c (s ++ b)).
      cbn [contains].
      pose proof (prefix_app_r k (String c s) b H) as P.
      change (String c s ++ b)%string with (String c (s ++ b)) in P.
      now rewrite P.
    + change (String c s ++ b)%string with (String c (s ++ b)).
      cbn [contains]. rewrite (IH H). apply orb_true_r.
Qed.

Lemma contains_app_l (k a s : string) :
  contains k s = true -> contains k (a ++ s) = true.
Proof.
  intro H. induction a as [|c a IH]; [exact H|].
  change (String c a ++ s)%string with (String c (a ++ s)).
  cbn [contains]. rewrite IH. apply orb_true_r.
Qed.

Lemma contains_self (k : string) : contains k k = true.
Proof.
  destruct k as [|c k]; [reflexivity|].
  cbn [contains].
  assert (H : prefix (String c k) (String c k) = true).
  { pose proof (prefix_self_app (String c k) EmptyString) as P.
    replace (String c k ++ EmptyString)%string with (String c k) in P; [exact P|].
    clear P. induction (String c k) as [|d s IH]; simpl; [reflexivity|].
    now rewrite <- IH. }
  now rewrite H.
Qed.

(** A member of a joined list is a substring of the join. *)
Lemma join_contains (sep t : string) (l : list string) :
  In t l -> contains t (join sep l) = true.
Proof.
  unfold join. induction l as [|x l IH]; intro Hin; [destruct Hin|].
  destruct l as [|y l'].
  - destruct Hin as [->|[]]. simpl. apply contains_self.
  - change (concat sep (x :: y :: l'))
      with (x ++ sep ++ concat sep (y :: l'))%string.
    destruct Hin as [->|Hin].
    + apply contains_app_r, contains_self.
    + apply contains_app_l, contains_app_l. now apply IH.
Qed.

Lemma contains_trans_join (sep t u : string) (l : list string) :
  In u l -> contains t u = true -> contains t (join sep l) = true.
Proof.
  unfold join. induction l as [|x l IH]; intros Hin Ht; [destruct Hin|].
  destruct l as [|y l'].
  - destruct Hin as [->|[]]. exact Ht.
  - change (concat sep (x :: y :: l'))
      with (x ++ sep ++ concat sep (y :: l'))%string.
    destruct Hin as [->|Hin].
    + now apply contains_app_r.
    + apply contains_app_l, contains_app_l. now apply IH.
Qed.

Lemma join_has_nonspace (sep t : string) (l : list string) :
  In t l -> has_nonspace t = true -> has_nonspace (join sep l) = true.
Proof.
  unfold join. induction l as [|x l IH]; intros Hin Ht; [destruct Hin|].
  destruct l as [|y l'].
  - destruct Hin as [->|[]]. exact Ht.
  - change (concat sep (x :: y :: l'))
      with (x ++ sep ++ concat sep (y :: l'))%string.
    rewrite !PyStrFacts.has_nonspace_app.
    destruct Hin as [->|Hin].
    + now rewrite Ht.
    + rewrite (IH Hin Ht). now rewrite !orb_true_r.
Qed.
End ContainsFacts.

Lemma word_in_some_column (cols : list boundary) (ws : list word) (w : word) :
  cols <> [] -> In w ws ->
  exists l,
    In l (fold_left (place_word cols) ws (repeat [] (List.length cols)))
    /\ In (w_text w) l.
Proof.
  intros Hcols Hin.
  assert (Hp : Permutation
            (List.concat (fold_left (place_word cols) ws
                            (repeat [] (List.length cols))))
            (map w_text ws)).
  { eapply Permutation_trans;
      [apply (fold_place_word_perm cols ws Hcols); apply repeat_length|].
    now rewrite concat_repeat_nil. }
  assert (Ht : In (w_text w)
            (List.concat (fold_left (place_word cols) ws
                            (repeat [] (List.length cols))))).
  { eapply Permutation_in; [apply Permutation_sym, Hp|]. now apply in_map. }
  apply in_concat in Ht as [l [Hl Ht]]. now exists l.
Qed.

Lemma join_column_member (l : list string) (t : string) :
  In t l -> join_column l = PyStr.join " " l.
Proof. destruct l; [intros [] | reflexivity]. Qed.

Lemma filter_all {A} (p : A -> bool) (l : list A) :
  (forall x, In x l -> p x = true) -> filter p l = l.
Proof.
  induction l as [|x l IH]; intro H; simpl; [reflexivity|].
  rewrite (H x (or_introl eq_refl)). f_equal. apply IH.
  intros y Hy. apply H. now right.
Qed.

(** A sub-row with a word whose text is not blank gives exactly one
    entry; every word of the sub-row passes the substring test, so the
    sort key is the least top among all of them. *)
Lemma structure_sub_row_entry (cols : list boundary) (row_min_y : Q)
    (sub_row_words : list word) (w : word) :
  cols <> [] ->
  In w sub_row_words -> PyStr.nonblank (w_text w) = true ->
  structure_sub_row cols row_min_y sub_row_words
  = [(least_top row_min_y sub_row_words,
      map join_column
        (fold_left (place_word cols) sub_row_words
           (repeat [] (List.length cols))))].
Proof.
  intros Hcols Hin Hnb. unfold structure_sub_row.
  set (wic := fold_left (place_word cols) sub_row_words
                (repeat [] (List.length cols))).
  assert (Hany : any_nonblank (map join_column wic) = true).
  { destruct (word_in_some_column cols sub_row_words w Hcols Hin)
      as [l [Hl Ht]].
    unfold any_nonblank. apply existsb_exists. exists (join_column l).
    split; [now apply in_map|].
    rewrite (join_column_member l _ Ht), PyStrFacts.nonblank_has_nonspace.
    apply (ContainsFacts.join_has_nonspace _ (w_text w)); [exact Ht|].
    now rewrite <- PyStrFacts.nonblank_has_nonspace. }
  rewrite Hany.
  rewrite filter_all; [reflexivity|].
  intros v Hv.
  destruct (word_in_some_column cols sub_row_words v Hcols Hv) as [l [Hl Ht]].
  apply (ContainsFacts.contains_trans_join _ _ (join_column l)).
  - now apply in_map.
  - rewrite (join_column_member l _ Ht).
    now apply ContainsFacts.join_contains.
Qed.

(** X22. In the marked-row path, with at least one column, a logical
    sub-row that has a word with non-blank text gives exactly one
    structured row; all its words pass the substring test that selects
    the words for the sort key, so the key is the least top among all
    words of the sub-row (the fallback to the row's span minimum is not
    used). *)
Theorem sub_row_gives_one_entry (cols : list boundary) (row_min_y : Q)
    (sub_row_words : list word) (w : word) :
  cols <> [] ->
  In w sub_row_words -> PyStr.nonblank (w_text w) = true ->
  exists structured_sub_row,
    structure_sub_row cols row_min_y sub_row_words
    = [(least_top row_min_y sub_row_words, structured_sub_row)]
    /\ List.length structured_sub_row = List.length cols
    /\ any_nonblank structured_sub_row = true
    /\ exists w0 rest,
         sub_row_words = w0 :: rest
         /\ least_top row_min_y sub_row_words
            = py_min_list (w_y0 w0) (map w_y0 rest).
Proof.
  intros Hcols Hin Hnb.
  pose proof (structure_sub_row_entry cols row_min_y sub_row_words w
                Hcols Hin Hnb) as He.
  eexists. split; [exact He|].
  pose proof (structure_sub_row_entries cols row_min_y sub_row_words) as Hs.
  rewrite He in Hs. inversion Hs as [|? ? [Hlen Hany] _]; subst.
  cbn [snd] in Hlen, Hany.
  split; [exact Hlen|]. split; [exact Hany|].
  destruct sub_row_words as [|w0 rest]; [destruct Hin|].
  exists w0, rest. split; reflexivity.
Qed.

Lemma sub_row_gives_one_entry_witness :
  exists structured_sub_row,
    structure_sub_row [(0, 50); (50, 100)] 10 ex_words
    = [(least_top 10 ex_words, structured_sub_row)]
    /\ List.length structured_sub_row = 2%nat
    /\ any_nonblank structured_sub_row = true
    /\ exists w0 rest,
         ex_words = w0 :: rest
         /\ least_top 10 ex_words = py_min_list (w_y0 w0) (map w_y0 rest).
Proof.
  assert (Hcols : [(0, 50); (50, 100)] <> ([] : list boundary))
    by discriminate.
  exact (sub_row_gives_one_entry [(0, 50); (50, 100)] 10 ex_words
           (Word "x" 0 12 5 18) Hcols (or_introl eq_refl) eq_refl).
Defined.

Lemma separate_rows_members (cell_words : list word) :
  Forall (fun r => r <> [] /\ forall w, In w r -> In w cell_words)
    (separate_rows_by_vertical_gap cell_words).
Proof.
  destruct (separate_rows_segmented cell_words) as [groups [-> Hseg]].
  apply Forall_map.
  pose proof (Segmented_nonempty _ _ _ Hseg) as Hne.
  pose proof (Segmented_concat _ _ _ Hseg) as Hcat.
  apply Forall_forall. intros g Hg.
  rewrite Forall_forall in Hne. split.
  - intro Hnil. apply py_sorted_nil in Hnil. exact (Hne g Hg Hnil).
  - intros w Hw.
    eapply Permutation_in; [apply py_sorted_perm|].
    rewrite <- Hcat. apply in_concat. exists g. split; [exact Hg|].
    eapply Permutation_in; [apply py_sorted_perm | exact Hw].
Qed.

Lemma flat_map_singletons {A B} (f : A -> list B) (g : A -> B) (l : list A) :
  (forall x, In x l -> f x = [g x]) -> flat_map f l = map g l.
Proof.
  induction l as [|x l IH]; intro H; simpl; [reflexivity|].
  rewrite (H x (or_introl eq_refl)), IH; [reflexivity|].
  intros y Hy. apply H. now right.
Qed.

(** X23. A marked row with a box, in a table with at least one column
    and on a page whose words all have non-blank text, gives exactly one
    structured row per logical row that the row segmenter cuts out of
    the words overlapping its vertical span, keyed by the least top of
    that logical row. *)
Theorem marked_row_one_entry_per_logical_row (cols : list boundary)
    (page_words : list word) (r : row) (row_min_y row_max_y : Q) :
  cols <> [] ->
  Forall (fun w => PyStr.nonblank (w_text w) = true) page_words ->
  row_span r = Some (row_min_y, row_max_y) ->
  let logical_sub_rows :=
    separate_rows_by_vertical_gap
      (filter (word_in_span row_min_y row_max_y) page_words) in
  List.length (marked_row_entries cols page_words r)
  = List.length logical_sub_rows
  /\ map fst (marked_row_entries cols page_words r)
     = map (least_top row_min_y) logical_sub_rows.
Proof.
  intros Hcols Hwords Hspan logical_sub_rows.
  unfold marked_row_entries. rewrite Hspan. fold logical_sub_rows.
  assert (Heq : flat_map (structure_sub_row cols row_min_y) logical_sub_rows
                = map (fun ws =>
                         (least_top row_min_y ws,
                          map join_column
                            (fold_left (place_word cols) ws
                               (repeat [] (List.length cols)))))
                    logical_sub_rows).
  { apply flat_map_singletons. intros ws Hws.
    pose proof (separate_rows_members
                  (filter (word_in_span row_min_y row_max_y) page_words))
      as Hm.
    rewrite Forall_forall in Hm. destruct (Hm ws Hws) as [Hne Hsub].
    destruct ws as [|w0 rest]; [congruence|].
    apply (structure_sub_row_entry cols row_min_y (w0 :: rest) w0 Hcols);
      [now left|].
    assert (Hin : In w0 page_words).
    { specialize (Hsub w0 (or_introl eq_refl)).
      apply filter_In in Hsub. apply Hsub. }
    rewrite Forall_forall in Hwords. now apply Hwords. }
  rewrite Heq. split.
  - now rewrite length_map.
  - rewrite map_map. reflexivity.
Qed.

Lemma marked_row_one_entry_per_logical_row_witness :
  List.length (marked_row_entries [(0, 50); (50, 100)] ex_words ex_merged_marked)
  = List.length (separate_rows_by_vertical_gap
                   (filter (word_in_span 10 20) ex_words))
  /\ map fst (marked_row_entries [(0, 50); (50, 100)] ex_words ex_merged_marked)
     = map (least_top 10)
         (separate_rows_by_vertical_gap (filter (word_in_span 10 20) ex_words)).
Proof.
  assert (Hcols : [(0, 50); (50, 100)] <> ([] : list boundary))
    by discriminate.
  assert (Hwords : Forall (fun w => PyStr.nonblank (w_text w) = true) ex_words)
    by (repeat constructor).
  exact (marked_row_one_entry_per_logical_row [(0, 50); (50, 100)] ex_words
           ex_merged_marked 10 20 Hcols Hwords eq_refl).
Defined.
